(** * MySQLMCPClient (examples/list_environments_demo.py)

    A shallow embedding of the JSON-RPC client of the list_environments
    demo: the request-id counter, the transport [_make_request], the
    tool call [call_tool] and the four query operations built on the
    remote tool [list_environments].

    Python values that travel through the client are JSON values; the
    client object is a record threaded through a state-and-exception
    monad; the HTTP layer ([requests.post]) is a parameter of the
    development. *)

From Stdlib Require Import ZArith List String Ascii Bool Lia.
From Stdlib Require Import DecimalString Sorted.
Import ListNotations.
Open Scope string_scope.
Open Scope Z_scope.

Set Warnings "-register-all".

(** ** Python values *)

(** What [response.json()] can produce and what [json=payload] accepts.
    A [dict] is an association list in insertion order (the order shows
    in [str] of a dict); lookup takes the first binding of a key, which
    for a dict (keys unique) is its only one.  A [str] is the string of
    its code points, all below 256.  A [float] is kept as its [repr],
    no operation of the client computes with one. *)
Inductive json : Type :=
| JNull
| JBool (b : bool)
| JInt (z : Z)
| JFloat (repr : string)
| JString (s : string)
| JList (l : list json)
| JObject (d : list (string * json)).

Abbreviation dict := (list (string * json)).

(** The classes requests raises for an url it cannot use; each is a
    RequestException and a ValueError. *)
Inductive url_error : Type :=
| MissingSchema
| InvalidSchema
| InvalidURL.

(** The exceptions that reach a caller of the client, by class. *)
Inductive exn : Type :=
| ConnectionError                (* requests.exceptions.ConnectionError and
                                    its subclasses *)
| URLError (c : url_error)       (* MissingSchema, InvalidSchema, InvalidURL *)
| RequestException               (* another RequestException of requests.post,
                                    one that is no ValueError *)
| HTTPError (status : Z)         (* response.raise_for_status() *)
| JSONDecodeError                (* response.json() on a body that is not JSON;
                                    a ValueError too *)
| RecursionError                 (* response.json() on a body nested too deep *)
| Exception (msg : string)       (* raise Exception(...) *)
| ValueError (msg : string)      (* raise ValueError(...); response.json() on
                                    an integer literal that is too long *)
| KeyError (key : string)        (* d[key], key absent *)
| TypeError                      (* subscript, iteration or [in] on a wrong type *)
| AttributeError.                (* .get on a value that is not a dict *)

Inductive result (A : Type) : Type :=
| Ret (a : A)
| Raise (e : exn).
Arguments Ret {A} a.
Arguments Raise {A} e.

(** [key in d] and [d.get(key)] on a dict. *)
Fixpoint dict_get (key : string) (d : dict) : option json :=
  match d with
  | [] => None
  | (k, v) :: d' => if String.eqb k key then Some v else dict_get key d'
  end.

Definition dict_in (key : string) (d : dict) : bool :=
  match dict_get key d with Some _ => true | None => false end.

(** [v == s] for a Python str [s]. *)
Definition eq_str (v : json) (s : string) : bool :=
  match v with
  | JString s' => String.eqb s' s
  | _ => false
  end.

(** [s in v]: key membership on a dict, element membership on a list,
    substring on a str, TypeError elsewhere. *)
Definition py_in (s : string) (v : json) : result bool :=
  match v with
  | JObject d => Ret (dict_in s d)
  | JList l => Ret (existsb (fun x => eq_str x s) l)
  | JString t =>
      Ret (match String.index 0 s t with Some _ => true | None => false end)
  | _ => Raise TypeError
  end.

(** [v[key]] for a str key. *)
Definition subscript (v : json) (key : string) : result json :=
  match v with
  | JObject d =>
      match dict_get key d with
      | Some x => Ret x
      | None => Raise (KeyError key)
      end
  | _ => Raise TypeError
  end.

(** [v.get(key)]: None when the key is absent. *)
Definition py_get (v : json) (key : string) : result json :=
  match v with
  | JObject d =>
      Ret (match dict_get key d with Some x => x | None => JNull end)
  | _ => Raise AttributeError
  end.

Fixpoint chars (s : string) : list json :=
  match s with
  | EmptyString => []
  | String c s' => JString (String c EmptyString) :: chars s'
  end.

(** [for x in v]: the elements of a list, the keys of a dict, the
    characters of a str. *)
Definition py_iter (v : json) : result (list json) :=
  match v with
  | JList l => Ret l
  | JObject d => Ret (map (fun kv => JString (fst kv)) d)
  | JString s => Ret (chars s)
  | _ => Raise TypeError
  end.

(** ** [str] and [repr] *)

Definition hex_digit (n : N) : ascii :=
  match n with
  | 0%N => "0" | 1%N => "1" | 2%N => "2" | 3%N => "3" | 4%N => "4"
  | 5%N => "5" | 6%N => "6" | 7%N => "7" | 8%N => "8" | 9%N => "9"
  | 10%N => "a" | 11%N => "b" | 12%N => "c" | 13%N => "d" | 14%N => "e"
  | _ => "f"
  end%char.

Definition backslash : ascii := ascii_of_N 92.
Definition quote1 : ascii := ascii_of_N 39.
Definition quote2 : ascii := ascii_of_N 34.

(** The code points below 256 that [repr] writes as [\xNN]. *)
Definition unprintable (n : N) : bool :=
  (n <? 32)%N || (n =? 127)%N || ((128 <=? n)%N && (n <=? 160)%N) || (n =? 173)%N.

Definition repr_char (q : ascii) (c : ascii) : string :=
  let n := N_of_ascii c in
  if Ascii.eqb c backslash then String backslash (String backslash EmptyString)
  else if Ascii.eqb c q then String backslash (String q EmptyString)
  else if (n =? 9)%N then String backslash "t"
  else if (n =? 10)%N then String backslash "n"
  else if (n =? 13)%N then String backslash "r"
  else if unprintable n then
    String backslash
      (String "x" (String (hex_digit (n / 16)) (String (hex_digit (n mod 16)) EmptyString)))
  else String c EmptyString.

Fixpoint has_char (c : ascii) (s : string) : bool :=
  match s with
  | EmptyString => false
  | String c' s' => Ascii.eqb c' c || has_char c s'
  end.

Fixpoint repr_chars (q : ascii) (s : string) : string :=
  match s with
  | EmptyString => EmptyString
  | String c s' => repr_char q c ++ repr_chars q s'
  end.

(** [repr] of a str: single quotes, unless the string has a single
    quote and no double quote. *)
Definition repr_str (s : string) : string :=
  let q := if has_char quote1 s && negb (has_char quote2 s) then quote2 else quote1 in
  String q (repr_chars q s ++ String q EmptyString).

Definition str_int (z : Z) : string := NilZero.string_of_int (Z.to_int z).

Fixpoint join (sep : string) (l : list string) : string :=
  match l with
  | [] => EmptyString
  | [x] => x
  | x :: l' => x ++ sep ++ join sep l'
  end.

Fixpoint py_repr (v : json) : string :=
  match v with
  | JNull => "None"
  | JBool true => "True"
  | JBool false => "False"
  | JInt z => str_int z
  | JFloat r => r
  | JString s => repr_str s
  | JList l => "[" ++ join ", " (map py_repr l) ++ "]"
  | JObject d =>
      "{" ++ join ", " (map (fun kv => repr_str (fst kv) ++ ": " ++ py_repr (snd kv)) d)
          ++ "}"
  end.

(** [str(v)], which is what an f-string field writes. *)
Definition py_str (v : json) : string :=
  match v with
  | JString s => s
  | _ => py_repr v
  end.

(** ** The HTTP layer *)

(** The arguments of [requests.post(url, headers=..., json=...)]. *)
Record http_request : Type := {
  url : string;
  headers : list (string * string);
  json_payload : json
}.

(** Why [response.json()] gives no value: the body is not JSON
    (JSONDecodeError); it is JSON with an integer literal of more
    digits than the interpreter converts (a plain ValueError, with the
    interpreter's message); it is JSON nested deeper than the decoder
    recurses (RecursionError). *)
Inductive decode_error : Type :=
| NotJSON
| IntegerTooLong (msg : string)
| TooDeep.

Inductive decoded : Type :=
| Parsed (v : json)
| Undecodable (e : decode_error).

Definition decode_exn (e : decode_error) : exn :=
  match e with
  | NotJSON => JSONDecodeError
  | IntegerTooLong msg => ValueError msg
  | TooDeep => RecursionError
  end.

(** A received response: its status and what [response.json()] makes of
    its body. *)
Record response : Type := {
  status_code : Z;
  body : decoded
}.

(** Why [requests.post] raises ConnectionError: no connection could be
    established (refused, unknown host, no route, timeout while
    connecting); or one was established and then lost (reset or closed
    before the response was read, a failure of TLS or of a proxy). *)
Inductive connection_fault : Type :=
| NotEstablished
| Lost.

Inductive post_outcome : Type :=
| PostConnectionError (fault : connection_fault)
                                 (* requests.post raises ConnectionError *)
| PostURLError (c : url_error)   (* requests.post refuses the url *)
| PostRequestException           (* requests.post raises another
                                    RequestException: a read timeout, too many
                                    redirects, a payload it cannot encode *)
| PostResponse (r : response).

(** The server and the network between: what [requests.post] does with
    a request, given the requests sent before it (latest first). *)
Definition network : Type := list http_request -> http_request -> post_outcome.

(** ** The client *)

Record MySQLMCPClient : Type := {
  server_url : string;
  request_id : Z
}.

(** The client object and the requests it has handed to [requests.post]
    (latest first). *)
Record world : Type := {
  self : MySQLMCPClient;
  sent : list http_request
}.

Definition M (A : Type) : Type := world -> result A * world.

Definition ret {A} (a : A) : M A := fun w => (Ret a, w).

Definition raise {A} (e : exn) : M A := fun w => (Raise e, w).

Definition bind {A B} (m : M A) (k : A -> M B) : M B :=
  fun w =>
    match m w with
    | (Ret a, w') => k a w'
    | (Raise e, w') => (Raise e, w')
    end.

Definition lift {A} (r : result A) : M A := fun w => (r, w).

Declare Scope py_scope.
Delimit Scope py_scope with py.
Notation "x <- m ;; k" := (bind m (fun x => k))
  (at level 100, m at next level, right associativity) : py_scope.
Notation "m ;;; k" := (bind m (fun _ => k))
  (at level 100, right associativity) : py_scope.
Open Scope py_scope.

Definition get_self : M MySQLMCPClient := fun w => (Ret (self w), w).

Definition set_request_id (n : Z) : M unit :=
  fun w =>
    (Ret tt,
     {| self := {| server_url := server_url (self w); request_id := n |};
        sent := sent w |}).

(** [response.raise_for_status()]. *)
Definition raise_for_status (r : response) : M unit :=
  if (400 <=? status_code r) && (status_code r <? 600)
  then raise (HTTPError (status_code r))
  else ret tt.

(** [response.json()]. *)
Definition response_json (r : response) : M json :=
  match body r with
  | Parsed v => ret v
  | Undecodable e => raise (decode_exn e)
  end.

(** [{}] for [None] and for the empty dict, the dict itself otherwise. *)
Definition or_empty (params : option dict) : dict :=
  match params with
  | Some d => d
  | None => []
  end.

(** [MySQLMCPClient(server_url)]. *)
Definition __init__ (server_url : string) : MySQLMCPClient :=
  {| server_url := server_url; request_id := 0 |}.

Definition default_url : string := "http://localhost:8080/mcp".

Definition new_world (server_url : string) : world :=
  {| self := __init__ server_url; sent := [] |}.

Section Client.

Variable net : network.

(** [requests.post]: the request is recorded, and the call returns the
    response or raises. *)
Definition requests_post (req : http_request) : M response :=
  fun w =>
    let w' := {| self := self w; sent := req :: sent w |} in
    match net (sent w) req with
    | PostConnectionError _ => (Raise ConnectionError, w')
    | PostURLError c => (Raise (URLError c), w')
    | PostRequestException => (Raise RequestException, w')
    | PostResponse r => (Ret r, w')
    end.

Definition _make_request (method : string) (params : option dict) : M json :=
  c <- get_self ;;
  set_request_id (request_id c + 1) ;;;
  c <- get_self ;;
  let payload :=
    JObject [ ("jsonrpc", JString "2.0");
              ("id", JInt (request_id c));
              ("method", JString method);
              ("params", JObject (or_empty params)) ] in
  response <- requests_post
    {| url := server_url c;
       headers := [("Content-Type", "application/json")];
       json_payload := payload |} ;;
  raise_for_status response ;;;
  response_json response.

Definition call_tool (tool_name : string) (arguments : option dict) : M json :=
  let params :=
    [ ("name", JString tool_name);
      ("arguments", JObject (or_empty arguments)) ] in
  result <- _make_request "tools/call" (Some params) ;;
  has_error <- lift (py_in "error" result) ;;
  if has_error : bool then
    payload <- lift (subscript result "error") ;;
    raise (Exception ("MCP Error: " ++ py_str payload))
  else
    lift (py_get result "result").

Definition list_environments (include_disabled : bool) : M json :=
  call_tool "list_environments" (Some [("include_disabled", JBool include_disabled)]).

(** The comprehension [[env["name"] for env in envs]]. *)
Fixpoint names_of (envs : list json) : result (list json) :=
  match envs with
  | [] => Ret []
  | env :: envs' =>
      match subscript env "name" with
      | Raise e => Raise e
      | Ret n =>
          match names_of envs' with
          | Raise e => Raise e
          | Ret ns => Ret (n :: ns)
          end
      end
  end.

Definition get_environment_names (include_disabled : bool) : M (list json) :=
  result <- list_environments include_disabled ;;
  environments <- lift (subscript result "environments") ;;
  envs <- lift (py_iter environments) ;;
  lift (names_of envs).

Definition get_default_environment : M json :=
  result <- list_environments false ;;
  lift (subscript result "default_environment").

(** The loop of [get_environment_info]: the first environment whose
    name is [env_name], ValueError when the loop ends without one. *)
Fixpoint find_environment (env_name : string) (envs : list json) : result json :=
  match envs with
  | [] => Raise (ValueError ("Environment '" ++ env_name ++ "' not found"))
  | env :: envs' =>
      match subscript env "name" with
      | Raise e => Raise e
      | Ret n => if eq_str n env_name then Ret env else find_environment env_name envs'
      end
  end.

Definition get_environment_info (env_name : string) : M json :=
  result <- list_environments true ;;
  environments <- lift (subscript result "environments") ;;
  envs <- lift (py_iter environments) ;;
  lift (find_environment env_name envs).

End Client.

(** ** Callers *)

(** One call of a method of the client.  A caller may catch what the
    call raises and go on with the same client (as [main] does around
    [get_environment_info]), so a sequence of calls is run to its end. *)
Inductive invocation : Type :=
| Make_request (method : string) (params : option dict)
| Call_tool (tool_name : string) (arguments : option dict)
| List_environments (include_disabled : bool)
| Get_environment_names (include_disabled : bool)
| Get_default_environment
| Get_environment_info (env_name : string).

Definition invoke (net : network) (i : invocation) (w : world) : world :=
  match i with
  | Make_request method params => snd (_make_request net method params w)
  | Call_tool tool_name arguments => snd (call_tool net tool_name arguments w)
  | List_environments b => snd (list_environments net b w)
  | Get_environment_names b => snd (get_environment_names net b w)
  | Get_default_environment => snd (get_default_environment net w)
  | Get_environment_info env_name => snd (get_environment_info net env_name w)
  end.

Fixpoint run (net : network) (calls : list invocation) (w : world) : world :=
  match calls with
  | [] => w
  | i :: calls' => run net calls' (invoke net i w)
  end.

(** ** Notions used in the statements *)

(** The id field of a request envelope. *)
Definition envelope_id (req : http_request) : option Z :=
  match json_payload req with
  | JObject d =>
      match dict_get "id" d with
      | Some (JInt n) => Some n
      | _ => None
      end
  | _ => None
  end.

(** The requests of a world in the order they were sent. *)
Definition history (w : world) : list http_request := rev (sent w).

(** The request envelope with id [n], posted to [url]. *)
Definition envelope (url : string) (n : Z) (method : string) (params : dict)
  : http_request :=
  {| url := url;
     headers := [("Content-Type", "application/json")];
     json_payload :=
       JObject [ ("jsonrpc", JString "2.0");
                 ("id", JInt n);
                 ("method", JString method);
                 ("params", JObject params) ] |}.

Definition tool_params (tool_name : string) (arguments : dict) : dict :=
  [ ("name", JString tool_name); ("arguments", JObject arguments) ].

(** The request a tool call posts from world [w]. *)
Definition tool_request (w : world) (tool_name : string) (arguments : dict)
  : http_request :=
  envelope (server_url (self w)) (request_id (self w) + 1) "tools/call"
           (tool_params tool_name arguments).

(** The client after one more request. *)
Definition posted (req : http_request) (w : world) : world :=
  {| self := {| server_url := server_url (self w);
                request_id := request_id (self w) + 1 |};
     sent := req :: sent w |}.

Definition status_error (r : response) : bool :=
  (400 <=? status_code r) && (status_code r <? 600).


(** An environment with a [name] field, and one whose name is [s]. *)
Definition has_name (env : json) : bool :=
  match subscript env "name" with
  | Ret _ => true
  | Raise _ => false
  end.

Definition named (s : string) (env : json) : bool :=
  match subscript env "name" with
  | Ret n => eq_str n s
  | Raise _ => false
  end.

Definition is_object (v : json) : bool :=
  match v with
  | JObject _ => true
  | _ => false
  end.

(** Sequencing of results without the state. *)
Definition rbind {A B} (r : result A) (k : A -> result B) : result B :=
  match r with
  | Ret a => k a
  | Raise e => Raise e
  end.

(** What [_make_request] returns for an outcome of the POST. *)
Definition transport_result (o : post_outcome) : result json :=
  match o with
  | PostConnectionError _ => Raise ConnectionError
  | PostURLError c => Raise (URLError c)
  | PostRequestException => Raise RequestException
  | PostResponse r =>
      if status_error r then Raise (HTTPError (status_code r))
      else match body r with
           | Parsed v => Ret v
           | Undecodable e => Raise (decode_exn e)
           end
  end.

(** What [call_tool] makes of a parsed response. *)
Definition tool_result (v : json) : result json :=
  rbind (py_in "error" v) (fun has_error : bool =>
    if has_error then
      rbind (subscript v "error") (fun payload =>
        Raise (Exception ("MCP Error: " ++ py_str payload)))
    else py_get v "result").

(** The environments a listing is iterated over. *)
Definition environments_of (listing : json) : result (list json) :=
  rbind (subscript listing "environments") py_iter.


(** ** Stub servers *)

Definition descriptor (name description status : string) (is_default : bool)
  : json :=
  JObject [ ("name", JString name);
            ("description", JString description);
            ("status", JString status);
            ("is_default", JBool is_default);
            ("connection_info",
             JObject [ ("host", JString "localhost"); ("port", JInt 3306);
                       ("database", JString name); ("username", JString "app") ]);
            ("pool_config",
             JObject [ ("min_connections", JInt 1); ("max_connections", JInt 10) ]) ].

Definition prod : json := descriptor "prod" "production" "enabled" true.
Definition dev : json := descriptor "dev" "development" "enabled" false.
Definition uat : json := descriptor "uat" "acceptance" "disabled" false.

Definition listing_of (envs : list json) : json :=
  JObject [ ("environments", JList envs);
            ("total_count", JInt (Z.of_nat (List.length envs)));
            ("default_environment", JString "prod") ].

Definition ok (v : json) : post_outcome :=
  PostResponse {| status_code := 200; body := Parsed v |}.

(** Whether a request asks for the disabled environments too. *)
Definition asks_disabled (req : http_request) : bool :=
  match rbind (subscript (json_payload req) "params") (fun p =>
        rbind (subscript p "arguments") (fun a => subscript a "include_disabled"))
  with
  | Ret (JBool b) => b
  | _ => false
  end.

(** Two enabled environments and a disabled one, default prod. *)
Definition stub_server : network :=
  fun _ req =>
    ok (JObject [ ("jsonrpc", JString "2.0");
                  ("result",
                   listing_of (if asks_disabled req then [prod; dev; uat]
                               else [prod; dev])) ]).

Definition boom_server : network :=
  fun _ _ => ok (JObject [ ("error", JObject [("message", JString "boom")]) ]).

Definition bare_server : network :=
  fun _ _ => ok (JObject [ ("jsonrpc", JString "2.0"); ("id", JInt 1) ]).

Definition refusing_server : network :=
  fun _ _ => PostConnectionError NotEstablished.

(** ** [main] *)

(** What a [print] of [main] writes: which statement it is, with the
    values its f-string formats.  The text around the values is fixed
    by the statement. *)
Inductive line : Type :=
| Title                                                  (* line 78 *)
| Rule                                                   (* line 79 *)
| Heading (n : nat)                     (* lines 86, 95, 104, 109, 114, 129 *)
| TotalCount (v : json)                                  (* line 88 *)
| DefaultEnvironment (v : json)                          (* line 89 *)
| EnabledEnvironment (name description status : json)    (* line 92 *)
| AnyEnvironment (enabled is_default : bool) (name description : json)
                                                         (* line 101 *)
| EnvironmentNames (joined : string)                     (* line 106 *)
| DefaultName (v : json)                                 (* line 111 *)
| InfoField (key : string) (v : json)                    (* lines 117-124 *)
| InfoError (e : exn)                                    (* line 126 *)
| ConfigName (name : json)                               (* line 133 *)
| ConfigConnection (username host port database : json)  (* line 134 *)
| ConfigPool (min_connections max_connections : json)    (* line 135 *)
| Done                                                   (* line 137 *)
| CannotConnect                                          (* line 140 *)
| StartHint                                              (* line 141 *)
| Failed (e : exn).                                      (* line 143 *)

(** The process: what it has printed, in order, and its client. *)
Record process : Type := {
  stdout : list line;
  client : world
}.

Definition IO (A : Type) : Type := process -> result A * process.

Definition io_ret {A} (a : A) : IO A := fun p => (Ret a, p).

Definition io_bind {A B} (m : IO A) (k : A -> IO B) : IO B :=
  fun p =>
    match m p with
    | (Ret a, p') => k a p'
    | (Raise e, p') => (Raise e, p')
    end.

Definition print (l : line) : IO unit :=
  fun p => (Ret tt, {| stdout := (stdout p ++ [l])%list; client := client p |}).

(** A method call on the client. *)
Definition call {A} (m : M A) : IO A :=
  fun p =>
    (fst (m (client p)), {| stdout := stdout p; client := snd (m (client p)) |}).

(** An expression that may raise. *)
Definition expr {A} (r : result A) : IO A := fun p => (r, p).

(** [try: m except ...: handler]; [handler e] is [None] when no clause
    matches the class of [e]. *)
Definition try_except {A} (m : IO A) (handler : exn -> option (IO A)) : IO A :=
  fun p =>
    match m p with
    | (Ret a, p') => (Ret a, p')
    | (Raise e, p') =>
        match handler e with
        | Some h => h p'
        | None => (Raise e, p')
        end
    end.

Fixpoint for_each (l : list json) (body : json -> IO unit) : IO unit :=
  match l with
  | [] => io_ret tt
  | x :: l' => io_bind (body x) (fun _ => for_each l' body)
  end.

Declare Scope io_scope.
Delimit Scope io_scope with io.
Notation "x <- m ;; k" := (io_bind m (fun x => k))
  (at level 100, m at next level, right associativity) : io_scope.
Notation "m ;;; k" := (io_bind m (fun _ => k))
  (at level 100, right associativity) : io_scope.

(** The truth value of a Python value in [if]. *)
Definition truthy (v : json) : bool :=
  match v with
  | JNull => false
  | JBool b => b
  | JInt z => negb (z =? 0)
  | JFloat r => negb (String.eqb r "0.0" || String.eqb r "-0.0")
  | JString s => negb (String.eqb s EmptyString)
  | JList l => match l with [] => false | _ => true end
  | JObject d => match d with [] => false | _ => true end
  end.

(** [', '.join(names)]: TypeError on an item that is not a str. *)
Fixpoint strings_of (l : list json) : result (list string) :=
  match l with
  | [] => Ret []
  | JString s :: l' => rbind (strings_of l') (fun ss => Ret (s :: ss))
  | _ :: _ => Raise TypeError
  end.

Definition join_names (l : list json) : result string :=
  rbind (strings_of l) (fun ss => Ret (join ", " ss)).

(** [isinstance(e, ValueError)]: the decode error of [response.json()]
    and the url errors of requests are ValueErrors too. *)
Definition is_ValueError (e : exn) : bool :=
  match e with
  | ValueError _ | JSONDecodeError | URLError _ => true
  | _ => false
  end.

(** [v[key1][key2]]. *)
Definition subscript2 (v : json) (key1 key2 : string) : result json :=
  rbind (subscript v key1) (fun x => subscript x key2).

Section Main.

Variable net : network.

(** Lines 91-92. *)
Definition show_enabled (env : json) : IO unit :=
  (name <- expr (subscript env "name") ;;
   description <- expr (subscript env "description") ;;
   status <- expr (subscript env "status") ;;
   print (EnabledEnvironment name description status))%io.

(** Lines 98-101. *)
Definition show_any (env : json) : IO unit :=
  (status <- expr (subscript env "status") ;;
   is_default <- expr (subscript env "is_default") ;;
   name <- expr (subscript env "name") ;;
   description <- expr (subscript env "description") ;;
   print (AnyEnvironment (eq_str status "enabled") (truthy is_default)
                         name description))%io.

(** Lines 117-124. *)
Definition show_info (uat_info : json) : IO unit :=
  (v <- expr (subscript uat_info "name") ;;
   print (InfoField "name" v) ;;;
   v <- expr (subscript uat_info "description") ;;
   print (InfoField "description" v) ;;;
   v <- expr (subscript uat_info "status") ;;
   print (InfoField "status" v) ;;;
   v <- expr (subscript2 uat_info "connection_info" "host") ;;
   print (InfoField "host" v) ;;;
   v <- expr (subscript2 uat_info "connection_info" "port") ;;
   print (InfoField "port" v) ;;;
   v <- expr (subscript2 uat_info "connection_info" "database") ;;
   print (InfoField "database" v) ;;;
   v <- expr (subscript2 uat_info "connection_info" "username") ;;
   print (InfoField "username" v) ;;;
   v <- expr (subscript2 uat_info "pool_config" "max_connections") ;;
   print (InfoField "max_connections" v))%io.

(** Lines 130-135. *)
Definition show_config (env : json) : IO unit :=
  (conn <- expr (subscript env "connection_info") ;;
   pool <- expr (subscript env "pool_config") ;;
   name <- expr (subscript env "name") ;;
   print (ConfigName name) ;;;
   username <- expr (subscript conn "username") ;;
   host <- expr (subscript conn "host") ;;
   port <- expr (subscript conn "port") ;;
   database <- expr (subscript conn "database") ;;
   print (ConfigConnection username host port database) ;;;
   min_connections <- expr (subscript pool "min_connections") ;;
   max_connections <- expr (subscript pool "max_connections") ;;
   print (ConfigPool min_connections max_connections))%io.

(** Lines 115-126: the lookup of uat and its handler. *)
Definition uat_step : IO unit :=
  try_except
    (uat_info <- call (get_environment_info net "uat") ;;
     show_info uat_info)%io
    (fun e => if is_ValueError e then Some (print (InfoError e)) else None).

(** Lines 83-137, the body of the outer [try]. *)
Definition main_try : IO unit :=
  (print (Heading 1) ;;;
   environments <- call (list_environments net false) ;;
   v <- expr (subscript environments "total_count") ;;
   print (TotalCount v) ;;;
   v <- expr (subscript environments "default_environment") ;;
   print (DefaultEnvironment v) ;;;
   envs <- expr (environments_of environments) ;;
   for_each envs show_enabled ;;;
   print (Heading 2) ;;;
   all_environments <- call (list_environments net true) ;;
   all_envs <- expr (environments_of all_environments) ;;
   for_each all_envs show_any ;;;
   print (Heading 3) ;;;
   env_names <- call (get_environment_names net true) ;;
   joined <- expr (join_names env_names) ;;
   print (EnvironmentNames joined) ;;;
   print (Heading 4) ;;;
   default_env <- call (get_default_environment net) ;;
   print (DefaultName default_env) ;;;
   print (Heading 5) ;;;
   uat_step ;;;
   print (Heading 6) ;;;
   for_each all_envs show_config ;;;
   print Done)%io.

(** Lines 139-143. *)
Definition main_handler (e : exn) : option (IO unit) :=
  Some (match e with
        | ConnectionError => (print CannotConnect ;;; print StartHint)%io
        | _ => print (Failed e)
        end).

(** [main()], from a fresh process; the client is the one line 83
    makes, with the default url. *)
Definition main : process :=
  snd ((print Title ;;; print Rule ;;; try_except main_try main_handler)%io
         {| stdout := []; client := new_world default_url |}).

End Main.

(** The five requests of a full run of [main]. *)
Definition main_request (n : Z) (include_disabled : bool) : http_request :=
  envelope default_url n "tools/call"
    (tool_params "list_environments" [("include_disabled", JBool include_disabled)]).

Definition main_requests : list http_request :=
  [ main_request 1 false; main_request 2 true; main_request 3 true;
    main_request 4 false; main_request 5 true ].

(** The client of [main] after its first [k] requests. *)
Definition client_after (k : nat) : world :=
  {| self := {| server_url := default_url; request_id := Z.of_nat k |};
     sent := rev (firstn k main_requests) |}.

(** A descriptor with every field [main] reads. *)
Definition well_formed (env : json) : bool :=
  match subscript env "name", subscript env "description",
        subscript env "status", subscript env "is_default",
        subscript2 env "connection_info" "username",
        subscript2 env "connection_info" "host",
        subscript2 env "connection_info" "port",
        subscript2 env "connection_info" "database",
        subscript2 env "pool_config" "min_connections",
        subscript2 env "pool_config" "max_connections"
  with
  | Ret (JString _), Ret _, Ret _, Ret _, Ret _, Ret _, Ret _, Ret _, Ret _, Ret _ =>
      true
  | _, _, _, _, _, _, _, _, _, _ => false
  end.

(** A server that answers every request with a listing: [full] when
    the disabled environments are asked for, [enabled] otherwise. *)
Definition listing_server (enabled full : list json) : network :=
  fun _ req =>
    ok (JObject [ ("jsonrpc", JString "2.0");
                  ("result",
                   listing_of (if asks_disabled req then full else enabled)) ]).

(** ** Reasoning about [main] *)

(** [m], run from [p], ends in a value and a process that satisfy [Q],
    or in an exception and a process that satisfy [E]. *)
Definition wp {A} (m : IO A) (Q : A -> process -> Prop)
    (E : exn -> process -> Prop) (p : process) : Prop :=
  match m p with
  | (Ret a, p') => Q a p'
  | (Raise e, p') => E e p'
  end.

(** The lines that close a run: those of line 137 and of the handlers
    of lines 139-143. *)
Definition is_report (l : line) : bool :=
  match l with
  | Done | CannotConnect | StartHint | Failed _ => true
  | _ => false
  end.

(** The classes raised by what the client and [main] do with a parsed
    response, ValueError apart. *)
Definition inner (e : exn) : bool :=
  match e with
  | Exception _ | KeyError _ | TypeError | AttributeError => true
  | _ => false
  end.

Definition benign {A} (r : result A) : Prop :=
  match r with
  | Raise e => inner e = true
  | Ret _ => True
  end.

(** [requests.post] raised ConnectionError on the [k]-th request of
    [main]. *)
Definition refused (net : network) (k : nat) : Prop :=
  match k with
  | O => False
  | S j =>
      exists fault,
        net (sent (client_after j)) (nth j main_requests (main_request 0 false))
          = PostConnectionError fault
  end.

(** [main] has made [k] requests, the last of them answered, and has
    printed no closing line. *)
Definition at_request (net : network) (k : nat) (p : process) : Prop :=
  client p = client_after k
  /\ Forall (fun l => is_report l = false) (stdout p)
  /\ ~ refused net k.

(** The body of [main] has raised [e]. *)
Definition raised (net : network) (e : exn) (p : process) : Prop :=
  exists k,
    (k <= 5)%nat
    /\ client p = client_after k
    /\ Forall (fun l => is_report l = false) (stdout p)
    /\ (k = 5%nat -> is_ValueError e = false)
    /\ (e = ConnectionError <-> refused net k).

(** What a call ends with, against the outcome [o] of its exchange:
    ConnectionError when [requests.post] raised it and only then. *)
Definition settled {A} (o : post_outcome) (r : result A) : Prop :=
  match r with
  | Ret _ => forall fault, o <> PostConnectionError fault
  | Raise e => e = ConnectionError <-> exists fault, o = PostConnectionError fault
  end.

Definition calm {A} (r : result A) : Prop :=
  match r with
  | Raise ConnectionError => False
  | _ => True
  end.

(** How a run of [main] has ended: with line 137 after all five
    requests; with the lines of the ConnectionError handler after a
    request on which [requests.post] raised ConnectionError; or with
    the line of the last handler, for an exception that is no
    ConnectionError and, once all five requests are made, no
    ValueError. *)
Definition closed (net : network) (p : process) : Prop :=
  exists out k,
    Forall (fun l => is_report l = false) out
    /\ client p = client_after k
    /\ (k <= 5)%nat
    /\ ((stdout p = (out ++ [Done])%list /\ k = 5%nat /\ ~ refused net k)
        \/ (stdout p = (out ++ [CannotConnect; StartHint])%list /\ refused net k)
        \/ (exists e,
              stdout p = (out ++ [Failed e])%list
              /\ (k = 5%nat -> is_ValueError e = false)
              /\ e <> ConnectionError /\ ~ refused net k)).

(** The exception of a lookup of uat that finds none. *)
Definition uat_not_found : exn := ValueError "Environment 'uat' not found".

(** [main] has made [k] requests, and has printed the line of the
    missing uat if and only if [c]. *)
Definition steady (c : Prop) (k : nat) (p : process) : Prop :=
  client p = client_after k
  /\ (In (InfoError uat_not_found) (stdout p) <-> c).

(** ** The embedding at work *)

Example py_str_payload :
  py_str (JObject [ ("code", JInt (-32000)); ("message", JString "boom");
                    ("data", JList [JInt 0; JBool true; JNull; JFloat "1.5"]) ])
  = "{'code': -32000, 'message': 'boom', 'data': [0, True, None, 1.5]}".
Proof. reflexivity. Qed.

Example py_str_of_str : py_str (JString "boom") = "boom".
Proof. reflexivity. Qed.

Example repr_str_quotes :
  repr_str "it's" = String quote2 ("it's" ++ String quote2 EmptyString)
  /\ repr_str (String quote2 "it's")
     = String quote1 (String quote2 "it" ++ String backslash "'s'")
  /\ repr_str (String (ascii_of_N 10) (String (ascii_of_N 1) "a"))
     = String quote1 (String backslash "n" ++ String backslash "x01a'").
Proof. repeat split. Qed.

(** Two enabled environments and a disabled one, default prod. *)
Example stub_listings :
  let w := new_world default_url in
  fst (get_environment_names stub_server false w)
    = Ret [JString "prod"; JString "dev"]
  /\ fst (get_environment_names stub_server true w)
    = Ret [JString "prod"; JString "dev"; JString "uat"]
  /\ fst (get_default_environment stub_server w) = Ret (JString "prod")
  /\ rbind (fst (list_environments stub_server true w))
           (fun listing => subscript listing "total_count") = Ret (JInt 3).
Proof. repeat split. Qed.

(** A refused connection reaches the caller as ConnectionError, from
    every method. *)
Example refused_connection :
  let w := new_world default_url in
  fst (call_tool refusing_server "list_environments" None w) = Raise ConnectionError
  /\ fst (get_environment_names refusing_server true w) = Raise ConnectionError
  /\ fst (get_default_environment refusing_server w) = Raise ConnectionError
  /\ fst (get_environment_info refusing_server "uat" w) = Raise ConnectionError.
Proof. repeat split. Qed.

(** A listing without its [environments], and a null [result]. *)
Example ill_formed_listing :
  let w := new_world default_url in
  fst (get_environment_names
         (fun _ _ => ok (JObject [("result", JObject [("total_count", JInt 0)])]))
         true w)
    = Raise (KeyError "environments")
  /\ fst (get_environment_names bare_server true w) = Raise TypeError.
Proof. repeat split. Qed.

(** ** The transport *)

Section Transport.

Variable net : network.

Lemma _make_request_eq (method : string) (params : option dict) (w : world) :
  let req := envelope (server_url (self w)) (request_id (self w) + 1)
                      method (or_empty params) in
  _make_request net method params w =
    (transport_result (net (sent w) req), posted req w).
Proof.
  unfold _make_request, bind, get_self, set_request_id, requests_post,
    raise_for_status, response_json, envelope, posted; simpl.
  destruct (net (sent w) _) as [fault | c | | r]; simpl; try reflexivity.
  unfold status_error.
  destruct ((400 <=? status_code r) && (status_code r <? 600)); simpl;
    try reflexivity.
  destruct (body r); reflexivity.
Qed.

(** A step that only computes on the value of the step before. *)
Lemma bind_lift {A B} (m : M A) (f : A -> result B) (w : world) :
  bind m (fun a => lift (f a)) w = (rbind (fst (m w)) f, snd (m w)).
Proof.
  unfold bind, lift. destruct (m w) as [[a | e] w']; reflexivity.
Qed.

Lemma call_tool_tool_result (tool_name : string) (arguments : option dict)
    (w : world) :
  call_tool net tool_name arguments w =
    (rbind (fst (_make_request net "tools/call"
                   (Some (tool_params tool_name (or_empty arguments))) w))
           tool_result,
     snd (_make_request net "tools/call"
            (Some (tool_params tool_name (or_empty arguments))) w)).
Proof.
  unfold call_tool, tool_params, bind.
  destruct (_make_request _ _ _ w) as [[v | e] w']; simpl; try reflexivity.
  unfold tool_result, lift, raise.
  destruct (py_in "error" v) as [[ | ] | e]; simpl; try reflexivity.
  destruct (subscript v "error"); reflexivity.
Qed.

Lemma call_tool_eq (tool_name : string) (arguments : option dict) (w : world) :
  let req := tool_request w tool_name (or_empty arguments) in
  call_tool net tool_name arguments w =
    (rbind (transport_result (net (sent w) req)) tool_result, posted req w).
Proof.
  intros req. rewrite call_tool_tool_result, _make_request_eq. reflexivity.
Qed.

Lemma get_environment_names_eq (b : bool) (w : world) :
  get_environment_names net b w =
    (rbind (fst (list_environments net b w))
           (fun listing => rbind (environments_of listing) names_of),
     snd (list_environments net b w)).
Proof.
  unfold get_environment_names, environments_of, bind, lift.
  destruct (list_environments net b w) as [[v | e] w']; simpl; try reflexivity.
  destruct (subscript v "environments") as [x | e]; simpl; try reflexivity.
  destruct (py_iter x); reflexivity.
Qed.

Lemma get_environment_info_eq (env_name : string) (w : world) :
  get_environment_info net env_name w =
    (rbind (fst (list_environments net true w))
           (fun listing =>
              rbind (environments_of listing) (find_environment env_name)),
     snd (list_environments net true w)).
Proof.
  unfold get_environment_info, environments_of, bind, lift.
  destruct (list_environments net true w) as [[v | e] w']; simpl;
    try reflexivity.
  destruct (subscript v "environments") as [x | e]; simpl; try reflexivity.
  destruct (py_iter x); reflexivity.
Qed.

Lemma get_default_environment_eq (w : world) :
  get_default_environment net w =
    (rbind (fst (list_environments net false w))
           (fun listing => subscript listing "default_environment"),
     snd (list_environments net false w)).
Proof.
  unfold get_default_environment. apply bind_lift.
Qed.

(** Every method posts one request, with the next id, and leaves the
    client with that id. *)
Lemma invoke_posted (i : invocation) (w : world) :
  exists method params,
    invoke net i w =
      posted (envelope (server_url (self w)) (request_id (self w) + 1)
                       method params) w.
Proof.
  destruct i as [method params | t a | b | b | | n]; simpl.
  - exists method, (or_empty params). now rewrite _make_request_eq.
  - eexists _, _. rewrite call_tool_eq. reflexivity.
  - eexists _, _. unfold list_environments. rewrite call_tool_eq. reflexivity.
  - eexists _, _. rewrite get_environment_names_eq. unfold list_environments.
    rewrite call_tool_eq. reflexivity.
  - eexists _, _. rewrite get_default_environment_eq. unfold list_environments.
    rewrite call_tool_eq. reflexivity.
  - eexists _, _. rewrite get_environment_info_eq. unfold list_environments.
    rewrite call_tool_eq. reflexivity.
Qed.

End Transport.

(** ** The loops over a listing *)

Lemma names_of_map (envs names : list json) :
  names_of envs = Ret names <->
  map (fun env => subscript env "name") envs = map Ret names.
Proof.
  revert names. induction envs as [ | env envs IH]; intros names; simpl.
  - split; intros H.
    + injection H as <-. reflexivity.
    + destruct names; [reflexivity | discriminate].
  - destruct (subscript env "name") as [n | e].
    + destruct (names_of envs) as [ns | e].
      * split; intros H.
        -- injection H as <-. simpl. f_equal. now apply IH.
        -- destruct names as [ | n' names']; [discriminate | ].
           simpl in H. injection H as -> H. apply IH in H.
           injection H as ->. reflexivity.
      * split; intros H; [discriminate | ].
        destruct names as [ | n' names']; [discriminate | ].
        simpl in H. injection H as _ H. apply IH in H. discriminate.
    + split; intros H; [discriminate | ].
      destruct names; discriminate.
Qed.

Lemma names_of_total (envs : list json) :
  forallb has_name envs = true ->
  exists names, names_of envs = Ret names /\ List.length names = List.length envs.
Proof.
  induction envs as [ | env envs IH]; simpl; intros H.
  - exists []. split; reflexivity.
  - apply andb_prop in H as [Hn Hs]. unfold has_name in Hn.
    destruct (subscript env "name") as [n | e]; [ | discriminate].
    destruct (IH Hs) as (ns & -> & Hlen).
    exists (n :: ns). split; [reflexivity | simpl; now rewrite Hlen].
Qed.

(** The loop of [get_environment_info] returns the first environment
    of the requested name when all environments before it have a name. *)
Lemma find_environment_first (env_name : string) (envs : list json) (env : json) :
  forallb has_name envs = true ->
  find (named env_name) envs = Some env ->
  find_environment env_name envs = Ret env.
Proof.
  induction envs as [ | x envs IH]; simpl; intros Hn Hf; [discriminate | ].
  apply andb_prop in Hn as [Hx Hs]. unfold has_name in Hx. unfold named in Hf.
  destruct (subscript x "name") as [n | e]; [ | discriminate].
  destruct (eq_str n env_name).
  - now injection Hf as ->.
  - now apply IH.
Qed.

Lemma subscript_raises (v : json) (key : string) (e : exn) :
  subscript v key = Raise e -> e = KeyError key \/ e = TypeError.
Proof.
  destruct v; simpl; try (intros [= <-]; now right).
  destruct (dict_get key d); [discriminate | ].
  intros [= <-]. now left.
Qed.

Lemma find_environment_value_error (env_name : string) (envs : list json)
    (msg : string) :
  find_environment env_name envs = Raise (ValueError msg) ->
  existsb (named env_name) envs = false.
Proof.
  induction envs as [ | x envs IH]; simpl; intros H; [reflexivity | ].
  unfold named.
  destruct (subscript x "name") as [n | e] eqn:Hs.
  - destruct (eq_str n env_name); [discriminate | ]. now apply IH.
  - injection H as ->. apply subscript_raises in Hs as [Hs | Hs]; discriminate.
Qed.

Lemma find_environment_not_found (env_name : string) (envs : list json) :
  forallb has_name envs = true ->
  existsb (named env_name) envs = false ->
  find_environment env_name envs =
    Raise (ValueError ("Environment '" ++ env_name ++ "' not found")).
Proof.
  induction envs as [ | x envs IH]; simpl; intros Hn He; [reflexivity | ].
  apply andb_prop in Hn as [Hx Hs]. apply orb_false_elim in He as [Hm He].
  unfold has_name in Hx. unfold named in Hm.
  destruct (subscript x "name") as [n | e]; [ | discriminate].
  rewrite Hm. now apply IH.
Qed.

Lemma find_named (env_name : string) (envs : list json) (env : json) :
  find (named env_name) envs = Some env ->
  subscript env "name" = Ret (JString env_name).
Proof.
  intros H. apply find_some in H as [_ H]. unfold named in H.
  destruct (subscript env "name") as [n | e]; [ | discriminate].
  destruct n; try discriminate. simpl in H.
  apply String.eqb_eq in H. now subst.
Qed.

(** ** Request ids *)

Lemma history_posted (req : http_request) (w : world) :
  history (posted req w) = (history w ++ [req])%list.
Proof. reflexivity. Qed.

Lemma count_from_shift (base : Z) (n : nat) :
  map (fun k => Some (base + 1 + Z.of_nat k)) (seq 1 n) =
  map (fun k => Some (base + Z.of_nat k)) (seq 2 n).
Proof.
  rewrite <- (seq_shift n 1), map_map. apply map_ext.
  intros k. f_equal. lia.
Qed.

(** After a sequence of calls from any world: the requests sent so far,
    then one per call, with the ids that follow the counter. *)
Lemma run_ids (net : network) (calls : list invocation) (w : world) :
  map envelope_id (history (run net calls w)) =
    (map envelope_id (history w) ++
     map (fun k => Some (request_id (self w) + Z.of_nat k))
         (seq 1 (List.length calls)))%list.
Proof.
  revert w. induction calls as [ | i calls IH]; intros w.
  - simpl. now rewrite app_nil_r.
  - cbn [run List.length seq map].
    destruct (invoke_posted net i w) as (method & params & ->).
    rewrite IH, history_posted, map_app, <- app_assoc. f_equal.
    cbn [map app posted self request_id]. f_equal.
    apply count_from_shift.
Qed.

Lemma count_up_sorted (start n : nat) :
  StronglySorted Z.lt (map Z.of_nat (seq start n)).
Proof.
  revert start. induction n as [ | n IH]; intros start; simpl; constructor.
  - apply IH.
  - apply Forall_forall. intros z Hz.
    apply in_map_iff in Hz as (k & <- & Hk). apply in_seq in Hk. lia.
Qed.

Lemma sorted_nodup (l : list Z) : StronglySorted Z.lt l -> NoDup l.
Proof.
  induction 1 as [ | z l _ IH Hz]; constructor; [ | exact IH].
  intros Hin. rewrite Forall_forall in Hz. specialize (Hz z Hin). lia.
Qed.

(** C1: on one client, from its construction, the k-th call of the
    transport carries request id k, whatever the calls are and however
    they end: the ids of the requests, in the order they were sent,
    are 1, 2, ..., N.  They increase strictly and none occurs twice. *)
Theorem request_ids_count_up (net : network) (server_url : string)
    (calls : list invocation) :
  let ids := map Z.of_nat (seq 1 (List.length calls)) in
  map envelope_id (history (run net calls (new_world server_url))) = map Some ids
  /\ StronglySorted Z.lt ids
  /\ NoDup ids.
Proof.
  intros ids. split; [ | split].
  - rewrite run_ids. unfold ids. simpl. now rewrite map_map.
  - apply count_up_sorted.
  - apply sorted_nodup, count_up_sorted.
Qed.

(** C10: a call of the transport, and of every method above it, adds
    one to the request-id counter and leaves the server url as it was,
    whatever comes of the request; the request that is posted already
    carries the new id, and what [_make_request] returns or raises is
    decided by that request's exchange. *)
Theorem counter_advances_once (net : network) (i : invocation) (w : world) :
  request_id (self (invoke net i w)) = request_id (self w) + 1
  /\ server_url (self (invoke net i w)) = server_url (self w)
  /\ (exists req,
        sent (invoke net i w) = req :: sent w
        /\ envelope_id req = Some (request_id (self w) + 1))
  /\ (forall method params,
        exists req,
          envelope_id req = Some (request_id (self w) + 1)
          /\ _make_request net method params w =
               (transport_result (net (sent w) req),
                {| self := {| server_url := server_url (self w);
                              request_id := request_id (self w) + 1 |};
                   sent := req :: sent w |})).
Proof.
  destruct (invoke_posted net i w) as (method & params & ->).
  repeat split.
  - eexists. split; reflexivity.
  - intros m p. eexists. split; [ | apply _make_request_eq]. reflexivity.
Qed.

(** The counter moves on a refused connection, on a 500 and on a
    JSON-RPC error alike. *)
Example counter_advances_on_failure :
  _make_request refusing_server "tools/call" None (new_world default_url)
    = (Raise ConnectionError,
       posted (envelope default_url 1 "tools/call" []) (new_world default_url))
  /\ request_id (self (invoke (fun _ _ => PostResponse {| status_code := 500;
                                                          body := Undecodable NotJSON |})
                              (List_environments false) (new_world default_url))) = 1
  /\ request_id (self (invoke boom_server (Get_environment_info "uat")
                              (new_world default_url))) = 1.
Proof. repeat split. Qed.

(** C5: [list_environments(include_disabled)] posts, to the server url
    and with the header Content-Type: application/json, the envelope
    whose id is the counter plus one, whose method is tools/call and
    whose params name the tool list_environments with the argument
    include_disabled; that request is the one the world records. *)
Theorem list_environments_request (net : network) (include_disabled : bool)
    (w : world) :
  let req :=
    {| url := server_url (self w);
       headers := [("Content-Type", "application/json")];
       json_payload :=
         JObject
           [ ("jsonrpc", JString "2.0");
             ("id", JInt (request_id (self w) + 1));
             ("method", JString "tools/call");
             ("params",
              JObject
                [ ("name", JString "list_environments");
                  ("arguments",
                   JObject [("include_disabled", JBool include_disabled)]) ]) ] |} in
  sent (snd (list_environments net include_disabled w)) = req :: sent w
  /\ fst (list_environments net include_disabled w) =
       rbind (transport_result (net (sent w) req)) tool_result.
Proof.
  intros req. unfold list_environments. rewrite call_tool_eq. split; reflexivity.
Qed.

(** ** Envelopes *)

(** C2: when the exchange succeeds and the parsed envelope is the
    object [env], [call_tool] raises exactly when [env] has an [error]
    field, and then it raises Exception with the message MCP Error:
    followed by [str] of the server's error payload; without an [error]
    field it returns [env.get("result")], the [result] field as it is. *)
Theorem call_tool_error_iff (net : network) (tool_name : string)
    (arguments : option dict) (w w' : world) (env : dict) :
  _make_request net "tools/call"
      (Some [ ("name", JString tool_name);
              ("arguments", JObject (or_empty arguments)) ]) w
    = (Ret (JObject env), w') ->
  (forall payload,
      dict_get "error" env = Some payload ->
      call_tool net tool_name arguments w =
        (Raise (Exception ("MCP Error: " ++ py_str payload)), w'))
  /\ (dict_get "error" env = None ->
      call_tool net tool_name arguments w =
        (Ret (match dict_get "result" env with Some v => v | None => JNull end), w'))
  /\ ((exists e, fst (call_tool net tool_name arguments w) = Raise e) <->
      dict_in "error" env = true).
Proof.
  intros Ht. rewrite call_tool_tool_result. unfold tool_params. rewrite Ht.
  unfold tool_result, dict_in. simpl. unfold dict_in.
  destruct (dict_get "error" env) as [payload | ]; simpl.
  - split; [ | split].
    + intros p [= <-]. reflexivity.
    + discriminate.
    + split; [reflexivity | eauto].
  - split; [ | split].
    + discriminate.
    + reflexivity.
    + split; [intros [e He]; discriminate | discriminate].
Qed.

(** The envelope with the error message boom. *)
Lemma call_tool_error_iff_witness :
  _make_request boom_server "tools/call"
      (Some [ ("name", JString "list_environments");
              ("arguments", JObject (or_empty (Some [("include_disabled", JBool false)]))) ])
      (new_world default_url)
    = (Ret (JObject [("error", JObject [("message", JString "boom")])]),
       invoke boom_server (List_environments false) (new_world default_url))
  /\ call_tool boom_server "list_environments"
       (Some [("include_disabled", JBool false)]) (new_world default_url)
     = (Raise (Exception "MCP Error: {'message': 'boom'}"),
        invoke boom_server (List_environments false) (new_world default_url)).
Proof.
  split; [reflexivity | ].
  exact (proj1 (call_tool_error_iff boom_server "list_environments"
                  (Some [("include_disabled", JBool false)])
                  (new_world default_url) _ _ eq_refl)
               (JObject [("message", JString "boom")]) eq_refl).
Defined.

(** C9: when the exchange succeeds and the parsed envelope has neither
    an [error] nor a [result] field, [call_tool] returns None and
    raises nothing. *)
Theorem call_tool_bare_envelope (net : network) (tool_name : string)
    (arguments : option dict) (w w' : world) (env : dict) :
  _make_request net "tools/call"
      (Some [ ("name", JString tool_name);
              ("arguments", JObject (or_empty arguments)) ]) w
    = (Ret (JObject env), w') ->
  dict_get "error" env = None ->
  dict_get "result" env = None ->
  call_tool net tool_name arguments w = (Ret JNull, w').
Proof.
  intros Ht He Hr. rewrite call_tool_tool_result. unfold tool_params.
  rewrite Ht. unfold tool_result. simpl. unfold dict_in.
  now rewrite He, Hr.
Qed.

Lemma call_tool_bare_envelope_witness :
  dict_get "error" [ ("jsonrpc", JString "2.0"); ("id", JInt 1) ] = None
  /\ dict_get "result" [ ("jsonrpc", JString "2.0"); ("id", JInt 1) ] = None
  /\ call_tool bare_server "list_environments" None (new_world default_url)
     = (Ret JNull, invoke bare_server (Call_tool "list_environments" None)
                          (new_world default_url)).
Proof.
  split; [reflexivity | split; [reflexivity | ]].
  exact (call_tool_bare_envelope bare_server "list_environments" None
           (new_world default_url) _
           [ ("jsonrpc", JString "2.0"); ("id", JInt 1) ]
           eq_refl eq_refl eq_refl).
Defined.

(** ** Queries on a listing *)

(** C6: [get_environment_names(include_disabled)] returns [names] exactly
    when [names] is the listing's [environments] mapped to their [name]
    fields, one name per environment and in the listing's order. *)
Theorem get_environment_names_map (net : network) (include_disabled : bool)
    (w w' : world) (listing : json) (envs names : list json) :
  list_environments net include_disabled w = (Ret listing, w') ->
  subscript listing "environments" = Ret (JList envs) ->
  get_environment_names net include_disabled w = (Ret names, w') <->
  map (fun env => subscript env "name") envs = map Ret names.
Proof.
  intros Hl He. rewrite get_environment_names_eq, Hl. simpl.
  unfold environments_of. rewrite He. simpl.
  rewrite <- names_of_map. split.
  - now intros [= ->].
  - now intros ->.
Qed.

Lemma get_environment_names_map_witness :
  get_environment_names stub_server true (new_world default_url)
  = (Ret [JString "prod"; JString "dev"; JString "uat"],
     invoke stub_server (List_environments true) (new_world default_url)).
Proof.
  apply (get_environment_names_map stub_server true (new_world default_url) _
           (listing_of [prod; dev; uat]) [prod; dev; uat]
           [JString "prod"; JString "dev"; JString "uat"]);
    reflexivity.
Defined.

(** C7, amended: [get_environment_names(True)] returns one name for
    each entry of the listing's [environments]: whenever it returns,
    the length of what it returns is the number of those entries, and
    it returns when each entry has a name.  The listing's
    [total_count] is not read. *)
Theorem get_environment_names_length (net : network) (w w' : world)
    (listing : json) (envs : list json) :
  list_environments net true w = (Ret listing, w') ->
  subscript listing "environments" = Ret (JList envs) ->
  (forall names,
      get_environment_names net true w = (Ret names, w') ->
      List.length names = List.length envs)
  /\ (forallb has_name envs = true ->
      exists names, get_environment_names net true w = (Ret names, w')).
Proof.
  intros Hl He.
  assert (Hg : get_environment_names net true w = (names_of envs, w')).
  { rewrite get_environment_names_eq, Hl. simpl.
    unfold environments_of. now rewrite He. }
  rewrite Hg. split.
  - intros names [= Hn]. apply names_of_map in Hn.
    apply (f_equal (@List.length _)) in Hn. now rewrite !length_map in Hn.
  - intros Hn. destruct (names_of_total envs Hn) as (names & -> & _).
    now exists names.
Qed.

Lemma get_environment_names_length_witness :
  List.length [JString "prod"; JString "dev"; JString "uat"]
  = List.length [prod; dev; uat].
Proof.
  apply (get_environment_names_length stub_server (new_world default_url) _
           (listing_of [prod; dev; uat]) [prod; dev; uat] eq_refl eq_refl).
  reflexivity.
Defined.

(** A server that counts five environments and lists one: the names are
    one, not [total_count]. *)
Lemma total_count_not_the_length :
  let net : network := fun _ _ =>
    ok (JObject [ ("result",
                   JObject [ ("environments", JList [prod]);
                             ("total_count", JInt 5);
                             ("default_environment", JString "prod") ]) ]) in
  exists names listing,
    fst (get_environment_names net true (new_world default_url)) = Ret names
    /\ fst (list_environments net true (new_world default_url)) = Ret listing
    /\ subscript listing "total_count" = Ret (JInt 5)
    /\ Z.of_nat (List.length names) <> 5.
Proof.
  intros net. eexists _, _. repeat split. discriminate.
Qed.

(** C3: [get_environment_info(env_name)] asks for the listing with
    include_disabled true; when the listing's environments all have a
    name and one of them is named [env_name], it returns the first such
    environment in the listing's order, whose [name] is [env_name]. *)
Theorem get_environment_info_first_match (net : network) (env_name : string)
    (w w' : world) (listing : json) (envs : list json) :
  list_environments net true w = (Ret listing, w') ->
  subscript listing "environments" = Ret (JList envs) ->
  forallb has_name envs = true ->
  existsb (named env_name) envs = true ->
  exists env,
    find (named env_name) envs = Some env
    /\ get_environment_info net env_name w = (Ret env, w')
    /\ subscript env "name" = Ret (JString env_name)
    /\ sent w' =
         tool_request w "list_environments" [("include_disabled", JBool true)]
           :: sent w.
Proof.
  intros Hl He Hn Hx.
  destruct (find (named env_name) envs) as [env | ] eqn:Hf.
  - exists env. split; [reflexivity | ]. split; [ | split].
    + rewrite get_environment_info_eq, Hl. simpl.
      unfold environments_of. rewrite He. simpl.
      now rewrite (find_environment_first env_name envs env Hn Hf).
    + exact (find_named env_name envs env Hf).
    + unfold list_environments in Hl. rewrite call_tool_eq in Hl.
      now injection Hl as _ <-.
  - apply existsb_exists in Hx as (x & Hin & Hx).
    pose proof (find_none _ _ Hf x Hin) as Hno. congruence.
Qed.

(** uat is disabled: only the listing with the disabled environments
    has it. *)
Lemma get_environment_info_first_match_witness :
  get_environment_info stub_server "uat" (new_world default_url)
  = (Ret uat, invoke stub_server (List_environments true) (new_world default_url))
  /\ existsb (named "uat") [prod; dev] = false.
Proof.
  split; [ | reflexivity].
  destruct (get_environment_info_first_match stub_server "uat"
              (new_world default_url) _ (listing_of [prod; dev; uat])
              [prod; dev; uat] eq_refl eq_refl eq_refl eq_refl)
    as (env & Hf & Hg & _).
  injection Hf as <-. exact Hg.
Defined.

(** C4: for a listing (asked with include_disabled true) whose
    environments all have a name, [get_environment_info(env_name)]
    raises ValueError exactly when no environment is named [env_name],
    and the message is Environment 'env_name' not found. *)
Theorem get_environment_info_not_found (net : network) (env_name : string)
    (w w' : world) (listing : json) (envs : list json) :
  list_environments net true w = (Ret listing, w') ->
  subscript listing "environments" = Ret (JList envs) ->
  forallb has_name envs = true ->
  (existsb (named env_name) envs = false ->
   get_environment_info net env_name w =
     (Raise (ValueError ("Environment '" ++ env_name ++ "' not found")), w'))
  /\ ((exists msg, fst (get_environment_info net env_name w) = Raise (ValueError msg))
      <-> existsb (named env_name) envs = false).
Proof.
  intros Hl He Hn.
  assert (Hg : get_environment_info net env_name w =
               (find_environment env_name envs, w')).
  { rewrite get_environment_info_eq, Hl. simpl.
    unfold environments_of. now rewrite He. }
  rewrite Hg. simpl. split.
  - intros Hx. now rewrite (find_environment_not_found env_name envs Hn Hx).
  - split.
    + intros [msg Hm].
      exact (find_environment_value_error env_name envs msg Hm).
    + intros Hx. rewrite (find_environment_not_found env_name envs Hn Hx). eauto.
Qed.

Lemma get_environment_info_not_found_witness :
  get_environment_info stub_server "missing" (new_world default_url)
  = (Raise (ValueError "Environment 'missing' not found"),
     invoke stub_server (List_environments true) (new_world default_url)).
Proof.
  exact (proj1 (get_environment_info_not_found stub_server "missing"
                  (new_world default_url) _ (listing_of [prod; dev; uat])
                  [prod; dev; uat] eq_refl eq_refl eq_refl)
               eq_refl).
Defined.

(** ** Failure kinds *)

(** What the steps after the transport raise. *)

Lemma subscript_benign (v : json) (key : string) : benign (subscript v key).
Proof.
  destruct v; simpl; try reflexivity. now destruct (dict_get key d).
Qed.

Lemma subscript2_benign (v : json) (key1 key2 : string) :
  benign (subscript2 v key1 key2).
Proof.
  unfold subscript2. pose proof (subscript_benign v key1) as H.
  destruct (subscript v key1); [apply subscript_benign | exact H].
Qed.

Lemma environments_of_benign (listing : json) : benign (environments_of listing).
Proof.
  unfold environments_of. pose proof (subscript_benign listing "environments") as H.
  destruct (subscript listing "environments") as [x | e]; [ | exact H].
  now destruct x.
Qed.

Lemma join_names_benign (l : list json) : benign (join_names l).
Proof.
  unfold join_names.
  assert (H : benign (strings_of l)).
  { induction l as [ | x l IH]; simpl; [exact I | ].
    destruct x; simpl; try reflexivity.
    destruct (strings_of l); simpl; [exact I | exact IH]. }
  destruct (strings_of l); [exact I | exact H].
Qed.

Lemma names_of_benign (envs : list json) : benign (names_of envs).
Proof.
  induction envs as [ | x envs IH]; simpl; [exact I | ].
  pose proof (subscript_benign x "name") as H.
  destruct (subscript x "name"); [ | exact H].
  destruct (names_of envs); [exact I | exact IH].
Qed.

Lemma tool_result_benign (v : json) : benign (tool_result v).
Proof.
  unfold tool_result.
  destruct v as [ | b | z | r | s | l | d]; simpl; try reflexivity.
  - now destruct (String.index 0 "error" s).
  - now destruct (existsb (fun x => eq_str x "error") l).
  - unfold dict_in. destruct (dict_get "error" d) eqn:He; simpl; [ | exact I].
    try rewrite He; reflexivity.
Qed.

Lemma benign_calm {A} (r : result A) : benign r -> calm r.
Proof. destruct r as [a | e]; simpl; [auto | ]. now destruct e. Qed.



Lemma settled_tool (o : post_outcome) :
  settled o (rbind (transport_result o) tool_result).
Proof.
  destruct o as [fault | c | | r]; simpl.
  - split; [intros _; now exists fault | reflexivity].
  - split; [discriminate | intros [f H]; discriminate].
  - split; [discriminate | intros [f H]; discriminate].
  - destruct (status_error r); simpl;
      [split; [discriminate | intros [f H]; discriminate] | ].
    destruct (body r) as [v | e]; simpl.
    + pose proof (benign_calm _ (tool_result_benign v)) as Hc.
      destruct (tool_result v) as [x | e]; simpl in *; [discriminate | ].
      split; [intros ->; contradiction | intros [f H]; discriminate].
    + split; [destruct e; discriminate | intros [f H]; discriminate].
Qed.

Lemma settled_then {A} (o : post_outcome) (r : result json)
    (f : json -> result A) :
  settled o r -> (forall v, calm (f v)) -> settled o (rbind r f).
Proof.
  intros Hs Hf. destruct r as [v | e]; simpl in *; [ | exact Hs].
  specialize (Hf v). destruct (f v) as [a | e]; simpl in *; [exact Hs | ].
  split; [intros ->; contradiction | intros [fault H]; now destruct (Hs fault)].
Qed.

Lemma list_environments_settled (net : network) (b : bool) (w : world) :
  let req := tool_request w "list_environments" [("include_disabled", JBool b)] in
  snd (list_environments net b w) = posted req w
  /\ settled (net (sent w) req) (fst (list_environments net b w)).
Proof.
  intros req. unfold list_environments. rewrite call_tool_eq. cbn [fst snd].
  split; [reflexivity | apply settled_tool].
Qed.

Lemma names_steps_benign (listing : json) :
  benign (rbind (environments_of listing) names_of).
Proof.
  pose proof (environments_of_benign listing) as H.
  destruct (environments_of listing) as [envs | e]; simpl;
    [apply names_of_benign | exact H].
Qed.

Lemma get_environment_names_settled (net : network) (b : bool) (w : world) :
  let req := tool_request w "list_environments" [("include_disabled", JBool b)] in
  snd (get_environment_names net b w) = posted req w
  /\ settled (net (sent w) req) (fst (get_environment_names net b w)).
Proof.
  intros req. rewrite get_environment_names_eq. cbn [fst snd].
  destruct (list_environments_settled net b w) as (Hw & Hs).
  split; [exact Hw | ].
  apply settled_then; [exact Hs | ].
  intros v. apply benign_calm, names_steps_benign.
Qed.

Lemma get_default_environment_settled (net : network) (w : world) :
  let req := tool_request w "list_environments" [("include_disabled", JBool false)] in
  snd (get_default_environment net w) = posted req w
  /\ settled (net (sent w) req) (fst (get_default_environment net w)).
Proof.
  intros req. rewrite get_default_environment_eq. cbn [fst snd].
  destruct (list_environments_settled net false w) as (Hw & Hs).
  split; [exact Hw | ].
  apply settled_then; [exact Hs | ].
  intros v. apply benign_calm, subscript_benign.
Qed.

Lemma find_environment_calm (env_name : string) (envs : list json) :
  calm (find_environment env_name envs).
Proof.
  induction envs as [ | x envs IH]; simpl; [exact I | ].
  pose proof (benign_calm _ (subscript_benign x "name")) as H.
  destruct (subscript x "name") as [n | e]; [ | exact H].
  destruct (eq_str n env_name); [exact I | exact IH].
Qed.

Lemma get_environment_info_settled (net : network) (env_name : string)
    (w : world) :
  let req := tool_request w "list_environments" [("include_disabled", JBool true)] in
  snd (get_environment_info net env_name w) = posted req w
  /\ settled (net (sent w) req) (fst (get_environment_info net env_name w)).
Proof.
  intros req. rewrite get_environment_info_eq. cbn [fst snd].
  destruct (list_environments_settled net true w) as (Hw & Hs).
  split; [exact Hw | ].
  apply settled_then; [exact Hs | ].
  intros v. pose proof (benign_calm _ (environments_of_benign v)) as H.
  destruct (environments_of v) as [envs | e]; simpl;
    [apply find_environment_calm | exact H].
Qed.

Lemma find_environment_sound (env_name : string) (envs : list json) (env : json) :
  find_environment env_name envs = Ret env ->
  In env envs /\ subscript env "name" = Ret (JString env_name).
Proof.
  induction envs as [ | x envs IH]; simpl; intros H; [discriminate | ].
  destruct (subscript x "name") as [n | e] eqn:Hs; [ | discriminate].
  destruct (eq_str n env_name) eqn:Hn.
  - injection H as <-. split; [now left | ].
    destruct n; try discriminate. simpl in Hn.
    apply String.eqb_eq in Hn. now subst.
  - destruct (IH H) as [Hin Hname]. split; [now right | exact Hname].
Qed.



(** A refused connection, a lost one, a 503, a body that is not JSON, a
    body with too long an integer, the boom envelope and a missing
    name. *)
Example failures_surfaced_scenarios :
  let ends net := fst (get_environment_info net "missing" (new_world default_url)) in
  ends refusing_server = Raise ConnectionError
  /\ ends (fun _ _ => PostConnectionError Lost) = Raise ConnectionError
  /\ ends (fun _ _ => PostResponse {| status_code := 503; body := Undecodable NotJSON |})
     = Raise (HTTPError 503)
  /\ ends (fun _ _ => PostResponse {| status_code := 200; body := Undecodable NotJSON |})
     = Raise JSONDecodeError
  /\ ends (fun _ _ => PostResponse {| status_code := 200;
                                      body := Undecodable (IntegerTooLong "Exceeds the limit") |})
     = Raise (ValueError "Exceeds the limit")
  /\ ends boom_server = Raise (Exception "MCP Error: {'message': 'boom'}")
  /\ ends stub_server = Raise (ValueError "Environment 'missing' not found").
Proof. repeat split. Qed.


(** ** The transport, further *)

(** X2: a response with a 4xx or 5xx status makes [call_tool] raise
    HTTPError with that status, whatever its body: a JSON-RPC error
    sent with such a status is not reported as an MCP Error. *)
Theorem call_tool_status_first (net : network) (tool_name : string)
    (arguments : option dict) (w : world) (r : response) :
  net (sent w) (tool_request w tool_name (or_empty arguments)) = PostResponse r ->
  400 <= status_code r < 600 ->
  call_tool net tool_name arguments w =
    (Raise (HTTPError (status_code r)),
     posted (tool_request w tool_name (or_empty arguments)) w).
Proof.
  intros Hn [Hlo Hhi]. rewrite call_tool_eq, Hn.
  unfold transport_result, status_error.
  apply Z.leb_le in Hlo. apply Z.ltb_lt in Hhi. now rewrite Hlo, Hhi.
Qed.

Lemma call_tool_status_first_witness :
  let net : network := fun _ _ =>
    PostResponse
      {| status_code := 500;
         body := Parsed (JObject [("error", JObject [("message", JString "boom")])]) |} in
  fst (call_tool net "list_environments" None (new_world default_url))
  = Raise (HTTPError 500).
Proof.
  intros net.
  rewrite (call_tool_status_first net "list_environments" None
             (new_world default_url) _ eq_refl); [reflexivity | simpl; lia].
Defined.

(** X3: a parsed body that is not an object never comes back from
    [call_tool] as a value: the call raises TypeError or
    AttributeError. *)
Theorem call_tool_not_an_envelope (net : network) (tool_name : string)
    (arguments : option dict) (w w' : world) (v : json) :
  _make_request net "tools/call"
      (Some [ ("name", JString tool_name);
              ("arguments", JObject (or_empty arguments)) ]) w
    = (Ret v, w') ->
  is_object v = false ->
  call_tool net tool_name arguments w = (Raise TypeError, w')
  \/ call_tool net tool_name arguments w = (Raise AttributeError, w').
Proof.
  intros Ht Hv. rewrite call_tool_tool_result. unfold tool_params.
  rewrite Ht. cbn [fst snd rbind]. unfold tool_result.
  destruct v as [ | b | z | r | s | l | d]; cbn [py_in rbind];
    try (now left); try discriminate.
  - destruct (String.index 0 "error" s); cbn [subscript py_get rbind];
      [now left | now right].
  - destruct (existsb (fun x => eq_str x "error") l);
      cbn [subscript py_get rbind]; [now left | now right].
Qed.

Lemma call_tool_not_an_envelope_witness :
  let net : network := fun _ _ => ok (JList [JString "prod"; JString "dev"]) in
  fst (call_tool net "list_environments" None (new_world default_url))
  = Raise AttributeError.
Proof.
  intros net.
  destruct (call_tool_not_an_envelope net "list_environments" None
              (new_world default_url) _ _ eq_refl eq_refl) as [H | H];
    [discriminate H | now rewrite H].
Defined.

Lemma environments_of_raises (listing : json) (e : exn) :
  environments_of listing = Raise e ->
  e = KeyError "environments" \/ e = TypeError.
Proof.
  unfold environments_of.
  destruct (subscript listing "environments") as [x | e'] eqn:Hs; simpl.
  - destruct x; simpl; try discriminate; intros [= <-]; now right.
  - intros [= <-]. exact (subscript_raises _ _ _ Hs).
Qed.

Lemma names_of_raises_only (envs : list json) (e : exn) :
  names_of envs = Raise e -> e = KeyError "name" \/ e = TypeError.
Proof.
  induction envs as [ | x envs IH]; simpl; [discriminate | ].
  destruct (subscript x "name") as [n | e'] eqn:Hs.
  - destruct (names_of envs) as [ns | e']; [discriminate | ].
    intros [= <-]. now apply IH.
  - intros [= <-]. exact (subscript_raises _ _ _ Hs).
Qed.

Lemma find_environment_raises (env_name : string) (envs : list json) (e : exn) :
  find_environment env_name envs = Raise e ->
  e = KeyError "name" \/ e = TypeError
  \/ e = ValueError ("Environment '" ++ env_name ++ "' not found").
Proof.
  induction envs as [ | x envs IH]; simpl.
  - intros [= <-]. auto.
  - destruct (subscript x "name") as [n | e'] eqn:Hs.
    + destruct (eq_str n env_name); [discriminate | exact IH].
    + intros [= <-]. destruct (subscript_raises _ _ _ Hs); auto.
Qed.

(** X4: what each method adds to the exceptions of the layer below.
    Once the transport has returned a parsed body, [call_tool] returns
    or raises Exception, TypeError or AttributeError.  Once
    [list_environments] has returned a listing, [get_environment_names]
    and [get_default_environment] return or raise KeyError for the
    field they read or TypeError, and [get_environment_info] returns or
    raises KeyError, TypeError or the ValueError that names the
    requested environment. *)
Theorem classes_added (net : network) (w : world) :
  (forall tool_name arguments v w',
      _make_request net "tools/call"
          (Some [ ("name", JString tool_name);
                  ("arguments", JObject (or_empty arguments)) ]) w
        = (Ret v, w') ->
      match fst (call_tool net tool_name arguments w) with
      | Ret _ | Raise (Exception _) | Raise TypeError | Raise AttributeError => True
      | Raise _ => False
      end)
  /\ (forall include_disabled listing w',
        list_environments net include_disabled w = (Ret listing, w') ->
        match fst (get_environment_names net include_disabled w) with
        | Ret _ | Raise TypeError => True
        | Raise (KeyError key) => key = "environments" \/ key = "name"
        | Raise _ => False
        end)
  /\ (forall listing w',
        list_environments net false w = (Ret listing, w') ->
        match fst (get_default_environment net w) with
        | Ret _ | Raise TypeError => True
        | Raise (KeyError key) => key = "default_environment"
        | Raise _ => False
        end)
  /\ (forall env_name listing w',
        list_environments net true w = (Ret listing, w') ->
        match fst (get_environment_info net env_name w) with
        | Ret _ | Raise TypeError => True
        | Raise (KeyError key) => key = "environments" \/ key = "name"
        | Raise (ValueError msg) =>
            msg = "Environment '" ++ env_name ++ "' not found"
        | Raise _ => False
        end).
Proof.
  split; [ | split; [ | split]].
  - intros tool_name arguments v w' Ht.
    rewrite call_tool_tool_result. unfold tool_params. rewrite Ht.
    cbn [fst rbind]. unfold tool_result.
    destruct v as [ | b | z | r | s | l | d]; simpl; auto.
    + destruct (String.index 0 "error" s); simpl; auto.
    + destruct (existsb (fun x => eq_str x "error") l); simpl; auto.
    + unfold dict_in. destruct (dict_get "error" d) eqn:He; simpl; auto.
  - intros b listing w' Hl. rewrite get_environment_names_eq, Hl.
    cbn [fst rbind].
    destruct (environments_of listing) as [envs | e] eqn:He; simpl.
    + destruct (names_of envs) as [ns | e] eqn:Hn; [exact I | ].
      destruct (names_of_raises_only _ _ Hn) as [-> | ->]; auto.
    + destruct (environments_of_raises _ _ He) as [-> | ->]; auto.
  - intros listing w' Hl. rewrite get_default_environment_eq, Hl.
    cbn [fst rbind].
    destruct (subscript listing "default_environment") as [v | e] eqn:Hs;
      [exact I | ].
    destruct (subscript_raises _ _ _ Hs) as [-> | ->]; auto.
  - intros env_name listing w' Hl. rewrite get_environment_info_eq, Hl.
    cbn [fst rbind].
    destruct (environments_of listing) as [envs | e] eqn:He; simpl.
    + destruct (find_environment env_name envs) as [x | e] eqn:Hf; [exact I | ].
      destruct (find_environment_raises _ _ _ Hf) as [-> | [-> | ->]]; auto.
    + destruct (environments_of_raises _ _ He) as [-> | ->]; auto.
Qed.

(** ** Queries on a listing, further *)

(** X5: [get_default_environment] asks for the listing without the disabled
    environments and returns a value exactly when that listing is an
    object with a [default_environment] field, whose value it returns
    as it is, of whatever type. *)
Theorem get_default_environment_returns (net : network) (w : world) (v : json) :
  sent (snd (get_default_environment net w)) =
    tool_request w "list_environments" [("include_disabled", JBool false)]
      :: sent w
  /\ (fst (get_default_environment net w) = Ret v <->
      exists d,
        fst (list_environments net false w) = Ret (JObject d)
        /\ dict_get "default_environment" d = Some v).
Proof.
  rewrite get_default_environment_eq. cbn [fst snd]. split.
  - unfold list_environments. now rewrite call_tool_eq.
  - destruct (fst (list_environments net false w)) as [listing | e];
      cbn [rbind].
    + split.
      * destruct listing as [ | | | | | | d]; try discriminate. simpl.
        destruct (dict_get "default_environment" d) as [x | ] eqn:Hd;
          [ | discriminate].
        intros [= ->]. now exists d.
      * intros (d & [= ->] & Hd). simpl. now rewrite Hd.
    + split; [discriminate | intros (d & H & _); discriminate].
Qed.

Lemma names_of_raises (envs : list json) :
  forallb is_object envs = true ->
  forallb has_name envs = false ->
  names_of envs = Raise (KeyError "name").
Proof.
  induction envs as [ | x envs IH]; simpl; intros Ho Hn; [discriminate | ].
  apply andb_prop in Ho as [Hx Ho]. unfold has_name in Hn.
  destruct x as [ | | | | | | d]; try discriminate. simpl in *.
  destruct (dict_get "name" d); [ | reflexivity].
  simpl in Hn. now rewrite (IH Ho Hn).
Qed.

(** X6: one environment without a [name] field is enough for
    [get_environment_names] to raise KeyError: no partial list of names
    is returned. *)
Theorem get_environment_names_missing_name (net : network)
    (include_disabled : bool) (w w' : world) (listing : json)
    (envs : list json) :
  list_environments net include_disabled w = (Ret listing, w') ->
  subscript listing "environments" = Ret (JList envs) ->
  forallb is_object envs = true ->
  forallb has_name envs = false ->
  get_environment_names net include_disabled w = (Raise (KeyError "name"), w').
Proof.
  intros Hl He Ho Hn. rewrite get_environment_names_eq, Hl. cbn [fst snd rbind].
  unfold environments_of. rewrite He. cbn [rbind py_iter].
  now rewrite (names_of_raises envs Ho Hn).
Qed.

Lemma get_environment_names_missing_name_witness :
  let net : network := fun _ _ =>
    ok (JObject [("result",
                  listing_of [prod; JObject [("description", JString "no name")]; uat])]) in
  fst (get_environment_names net true (new_world default_url))
  = Raise (KeyError "name").
Proof.
  intros net.
  now rewrite (get_environment_names_missing_name net true
                 (new_world default_url) _ _ _ eq_refl eq_refl eq_refl eq_refl).
Defined.

Lemma find_environment_app (env_name : string) (before rest : list json) :
  forallb has_name before = true ->
  existsb (named env_name) before = false ->
  find_environment env_name (before ++ rest)%list = find_environment env_name rest.
Proof.
  induction before as [ | x before IH]; simpl; intros Hn Hx; [reflexivity | ].
  apply andb_prop in Hn as [Hh Hn]. apply orb_false_elim in Hx as [Hm Hx].
  unfold has_name in Hh. unfold named in Hm.
  destruct (subscript x "name") as [n | e]; [ | discriminate].
  rewrite Hm. now apply IH.
Qed.

(** X7: the scan of [get_environment_info] ends at the first environment of
    the requested name: what follows it in the listing is not looked
    at, be it another environment of that name or an entry that is no
    environment at all. *)
Theorem get_environment_info_stops_at_match (net : network) (env_name : string)
    (w w' : world) (listing : json) (before after : list json) (env : json) :
  list_environments net true w = (Ret listing, w') ->
  subscript listing "environments" = Ret (JList (before ++ env :: after)%list) ->
  forallb has_name before = true ->
  existsb (named env_name) before = false ->
  named env_name env = true ->
  get_environment_info net env_name w = (Ret env, w').
Proof.
  intros Hl He Hn Hx Hm. rewrite get_environment_info_eq, Hl.
  cbn [fst snd rbind]. unfold environments_of. rewrite He. cbn [rbind py_iter].
  rewrite (find_environment_app env_name before _ Hn Hx). simpl.
  unfold named in Hm. destruct (subscript env "name") as [n | e];
    [ | discriminate].
  now rewrite Hm.
Qed.

Lemma get_environment_info_stops_at_match_witness :
  let net : network := fun _ _ =>
    ok (JObject [("result",
                  listing_of [prod; uat; JNull;
                              descriptor "uat" "a second uat" "enabled" false])]) in
  fst (get_environment_info net "uat" (new_world default_url)) = Ret uat.
Proof.
  intros net.
  now rewrite (get_environment_info_stops_at_match net "uat"
                 (new_world default_url) _ _ [prod]
                 [JNull; descriptor "uat" "a second uat" "enabled" false] uat
                 eq_refl eq_refl eq_refl eq_refl eq_refl).
Defined.

(** X8: an entry that cannot give its name, met before any environment of
    the requested name, ends [get_environment_info] with the error of
    that subscript (KeyError for an object, TypeError otherwise), also
    when the requested environment comes later in the listing. *)
Theorem get_environment_info_nameless_first (net : network) (env_name : string)
    (w w' : world) (listing : json) (before after : list json) (bad : json)
    (e : exn) :
  list_environments net true w = (Ret listing, w') ->
  subscript listing "environments" = Ret (JList (before ++ bad :: after)%list) ->
  forallb has_name before = true ->
  existsb (named env_name) before = false ->
  subscript bad "name" = Raise e ->
  get_environment_info net env_name w = (Raise e, w')
  /\ (e = KeyError "name" \/ e = TypeError).
Proof.
  intros Hl He Hn Hx Hb. split.
  - rewrite get_environment_info_eq, Hl.
    cbn [fst snd rbind]. unfold environments_of. rewrite He.
    cbn [rbind py_iter].
    rewrite (find_environment_app env_name before _ Hn Hx). simpl.
    now rewrite Hb.
  - destruct bad as [ | | | | | | d]; simpl in Hb;
      try (injection Hb as <-; now right).
    destruct (dict_get "name" d); [discriminate | ].
    injection Hb as <-. now left.
Qed.

Lemma get_environment_info_nameless_first_witness :
  let net : network := fun _ _ =>
    ok (JObject [("result",
                  listing_of [prod; JObject [("status", JString "enabled")]; uat])]) in
  fst (get_environment_info net "uat" (new_world default_url))
  = Raise (KeyError "name").
Proof.
  intros net.
  destruct (get_environment_info_nameless_first net "uat"
              (new_world default_url) _ _ [prod] [uat]
              (JObject [("status", JString "enabled")]) (KeyError "name")
              eq_refl eq_refl eq_refl eq_refl eq_refl) as [H _].
  now rewrite H.
Defined.

(** X9: what [get_environment_info] returns is an entry of the listing it
    fetched with include_disabled true, and its [name] is the requested
    name: nothing is built or altered by the client. *)
Theorem get_environment_info_sound (net : network) (env_name : string)
    (w w' : world) (env : json) :
  get_environment_info net env_name w = (Ret env, w') ->
  exists listing envs,
    list_environments net true w = (Ret listing, w')
    /\ environments_of listing = Ret envs
    /\ In env envs
    /\ subscript env "name" = Ret (JString env_name).
Proof.
  rewrite get_environment_info_eq.
  destruct (list_environments net true w) as [[listing | e] w1];
    cbn [fst snd rbind]; [ | discriminate].
  destruct (environments_of listing) as [envs | e] eqn:He; cbn [rbind];
    [ | discriminate].
  intros H. injection H as Hf <-.
  exists listing, envs. repeat split; try apply (find_environment_sound _ _ _ Hf).
  exact He.
Qed.

Lemma get_environment_info_sound_witness :
  exists listing envs,
    list_environments stub_server true (new_world default_url)
    = (Ret listing,
       invoke stub_server (List_environments true) (new_world default_url))
    /\ environments_of listing = Ret envs
    /\ In dev envs
    /\ subscript dev "name" = Ret (JString "dev").
Proof.
  exact (get_environment_info_sound stub_server "dev" (new_world default_url)
           _ dev eq_refl).
Defined.

Lemma names_of_named (env_name : string) (envs names : list json) :
  names_of envs = Ret names ->
  forallb has_name envs = true
  /\ (existsb (named env_name) envs = true <-> In (JString env_name) names).
Proof.
  revert names. induction envs as [ | x envs IH]; simpl; intros names H.
  - injection H as <-. split; [reflexivity | ]. split; [discriminate | intros []].
  - unfold has_name, named.
    destruct (subscript x "name") as [n | e]; [ | discriminate].
    destruct (names_of envs) as [ns | e]; [ | discriminate].
    injection H as <-. destruct (IH ns eq_refl) as [Hh Hiff].
    split; [exact Hh | ]. simpl. rewrite orb_true_iff, Hiff.
    split; intros [Hn | Hin]; auto.
    + left. destruct n; try discriminate. simpl in Hn.
      apply String.eqb_eq in Hn. now subst.
    + left. subst n. simpl. apply String.eqb_refl.
Qed.

(** X10: on one answer of the server, the names [get_environment_names(True)]
    returns are the names [get_environment_info] finds: the lookup
    returns an environment when the name is in the list and raises
    ValueError when it is not. *)
Theorem get_environment_info_iff_listed (net : network) (env_name : string)
    (w w' : world) (names : list json) :
  get_environment_names net true w = (Ret names, w') ->
  ((exists env, get_environment_info net env_name w = (Ret env, w'))
   <-> In (JString env_name) names)
  /\ (get_environment_info net env_name w =
        (Raise (ValueError ("Environment '" ++ env_name ++ "' not found")), w')
      <-> ~ In (JString env_name) names).
Proof.
  rewrite get_environment_names_eq, get_environment_info_eq.
  destruct (list_environments net true w) as [[listing | e] w1];
    cbn [fst snd rbind]; [ | discriminate].
  destruct (environments_of listing) as [envs | e]; cbn [rbind];
    [ | discriminate].
  intros H. injection H as Hnames <-.
  destruct (names_of_named env_name envs names Hnames) as [Hh Hiff].
  destruct (existsb (named env_name) envs) eqn:Hx.
  - assert (Hin : In (JString env_name) names) by now apply Hiff.
    apply existsb_exists in Hx as (x & Hxin & Hxn).
    destruct (find (named env_name) envs) as [env | ] eqn:Hf.
    + rewrite (find_environment_first env_name envs env Hh Hf). split.
      * split; [now intros _ | intros _; now exists env].
      * split; [discriminate | intros Hno; now destruct Hno].
    + pose proof (find_none _ _ Hf x Hxin). congruence.
  - assert (Hno : ~ In (JString env_name) names).
    { intros Hin. apply Hiff in Hin. discriminate. }
    rewrite (find_environment_not_found env_name envs Hh Hx). split.
    + split; [intros [env He]; discriminate | intros Hin; now destruct Hno].
    + split; [now intros _ | reflexivity].
Qed.

Lemma get_environment_info_iff_listed_witness :
  (exists env,
      get_environment_info stub_server "uat" (new_world default_url)
      = (Ret env, invoke stub_server (List_environments true)
                         (new_world default_url)))
  /\ ~ In (JString "missing") [JString "prod"; JString "dev"; JString "uat"].
Proof.
  pose proof (get_environment_info_iff_listed stub_server "uat"
                (new_world default_url) _
                [JString "prod"; JString "dev"; JString "uat"] eq_refl) as Hu.
  split.
  - apply Hu. simpl. auto.
  - intros [H | [H | [H | []]]]; discriminate H.
Defined.

(** ** [main]: the rules *)

Lemma wp_bind {A B} (m : IO A) (k : A -> IO B) Q E p :
  wp m (fun a p' => wp (k a) Q E p') E p -> wp (io_bind m k) Q E p.
Proof.
  unfold wp, io_bind. destruct (m p) as [[a | e] p']; auto.
Qed.

Lemma wp_print (l : line) (Q : unit -> process -> Prop) E p :
  Q tt {| stdout := (stdout p ++ [l])%list; client := client p |} ->
  wp (print l) Q E p.
Proof. auto. Qed.

Lemma wp_expr {A} (r : result A) (Q : A -> process -> Prop)
    (E : exn -> process -> Prop) p :
  match r with Ret a => Q a p | Raise e => E e p end -> wp (expr r) Q E p.
Proof. unfold wp, expr. destruct r; auto. Qed.

Lemma wp_call {A} (m : M A) (Q : A -> process -> Prop)
    (E : exn -> process -> Prop) p :
  match fst (m (client p)) with
  | Ret a => Q a {| stdout := stdout p; client := snd (m (client p)) |}
  | Raise e => E e {| stdout := stdout p; client := snd (m (client p)) |}
  end ->
  wp (call m) Q E p.
Proof. unfold wp, call. destruct (fst (m (client p))); auto. Qed.

Lemma wp_try {A} (m : IO A) (handler : exn -> option (IO A)) Q E p :
  wp m Q
     (fun e p' =>
        match handler e with
        | Some h => wp h Q E p'
        | None => E e p'
        end) p ->
  wp (try_except m handler) Q E p.
Proof.
  unfold wp, try_except. destruct (m p) as [[a | e] p']; auto.
  destruct (handler e); auto.
Qed.

Lemma wp_for_each (I : process -> Prop) (l : list json) (body : json -> IO unit)
    (Q : unit -> process -> Prop) E p :
  I p ->
  (forall x p', In x l -> I p' -> wp (body x) (fun _ => I) E p') ->
  (forall p', I p' -> Q tt p') ->
  wp (for_each l body) Q E p.
Proof.
  intros Hp Hbody Hq. revert p Hp.
  induction l as [ | x l IH]; intros p Hp; simpl.
  - apply Hq, Hp.
  - apply wp_bind. specialize (Hbody x p (or_introl eq_refl) Hp) as Hx.
    unfold wp in *. destruct (body x p) as [[[] | e] p']; [ | exact Hx].
    apply IH; [ | exact Hx]. intros y q Hy. apply Hbody. now right.
Qed.

Lemma wp_cut {A} (I : process -> Prop) (m : IO A) Q E p :
  I p -> (forall p', I p' -> wp m Q E p') -> wp m Q E p.
Proof. auto. Qed.

Lemma wp_conseq {A} (m : IO A) (Q Q' : A -> process -> Prop)
    (E E' : exn -> process -> Prop) p :
  wp m Q E p ->
  (forall a p', Q a p' -> Q' a p') ->
  (forall e p', E e p' -> E' e p') ->
  wp m Q' E' p.
Proof.
  unfold wp. destruct (m p) as [[a | e] p']; auto.
Qed.

(** ** [main]: the run *)

Section MainRun.

Variable net : network.

Lemma at_request_print (k : nat) (p : process) (l : line) :
  is_report l = false ->
  at_request net k p ->
  at_request net k {| stdout := (stdout p ++ [l])%list; client := client p |}.
Proof.
  intros Hl (Hc & Hs & Hr). repeat split; auto. simpl.
  apply Forall_app. split; auto.
Qed.

Lemma raised_inner (k : nat) (p : process) (e : exn) :
  (k <= 5)%nat -> at_request net k p -> inner e = true -> raised net e p.
Proof.
  intros Hk (Hc & Hs & Hr) He. exists k.
  split; [exact Hk | ]. split; [exact Hc | ]. split; [exact Hs | ].
  split; [intros _; now destruct e | ].
  split; [intros ->; discriminate | intros H; contradiction].
Qed.

Ltac print_step :=
  apply wp_bind, wp_print;
  match goal with
  | H : at_request net ?k ?p |- _ =>
      apply (wp_cut (at_request net k));
      [ apply at_request_print; [reflexivity | exact H]
      | let q := fresh "p" in
        let Hq := fresh "H" in
        clear H; intros q Hq ]
  end.

Ltac last_print :=
  apply wp_print;
  match goal with
  | H : at_request net ?k ?p |- _ =>
      apply at_request_print; [reflexivity | exact H]
  end.

Ltac expr_step :=
  apply wp_bind, wp_expr;
  match goal with
  | |- match ?r with _ => _ end =>
      let Hb := fresh "Hb" in
      assert (Hb : benign r)
        by first [ apply subscript_benign | apply subscript2_benign
                 | apply environments_of_benign | apply join_names_benign ];
      let v := fresh "v" in
      let e := fresh "e" in
      destruct r as [v | e];
      [ clear Hb
      | match goal with
        | H : at_request net ?k _ |- _ =>
            first [ apply (raised_inner k); [lia | exact H | exact Hb]
                  | split; [exact Hb | exact H] ]
        end ]
  end.

Lemma show_enabled_wp (k : nat) (env : json) (p : process) :
  (k <= 5)%nat ->
  at_request net k p ->
  wp (show_enabled env) (fun _ => at_request net k) (raised net) p.
Proof.
  intros Hk H. unfold show_enabled.
  expr_step. expr_step. expr_step. last_print.
Qed.

Lemma show_any_wp (k : nat) (env : json) (p : process) :
  (k <= 5)%nat ->
  at_request net k p ->
  wp (show_any env) (fun _ => at_request net k) (raised net) p.
Proof.
  intros Hk H. unfold show_any.
  expr_step. expr_step. expr_step. expr_step. last_print.
Qed.

Lemma show_config_wp (k : nat) (env : json) (p : process) :
  (k <= 5)%nat ->
  at_request net k p ->
  wp (show_config env) (fun _ => at_request net k) (raised net) p.
Proof.
  intros Hk H. unfold show_config.
  expr_step. expr_step. expr_step. print_step.
  expr_step. expr_step. expr_step. expr_step. print_step.
  expr_step. expr_step. last_print.
Qed.

Lemma show_info_wp (uat_info : json) (p : process) :
  at_request net 5 p ->
  wp (show_info uat_info) (fun _ => at_request net 5)
     (fun e p' => inner e = true /\ at_request net 5 p') p.
Proof.
  intros H. unfold show_info.
  expr_step. print_step. expr_step. print_step. expr_step. print_step.
  expr_step. print_step. expr_step. print_step. expr_step. print_step.
  expr_step. print_step. expr_step. last_print.
Qed.

(** A call of the client from the state after [k] requests. *)
Lemma call_wp {A} (op : M A) (k : nat) (b : bool)
    (Q : A -> process -> Prop) (p : process) :
  (k < 4)%nat ->
  nth k main_requests (main_request 0 false) =
    tool_request (client_after k) "list_environments"
                 [("include_disabled", JBool b)] ->
  posted (tool_request (client_after k) "list_environments"
                       [("include_disabled", JBool b)])
         (client_after k) = client_after (S k) ->
  (forall w,
      snd (op w) =
        posted (tool_request w "list_environments"
                             [("include_disabled", JBool b)]) w
      /\ settled (net (sent w)
                      (tool_request w "list_environments"
                                    [("include_disabled", JBool b)]))
                 (fst (op w))) ->
  at_request net k p ->
  (forall a p', at_request net (S k) p' -> Q a p') ->
  wp (call op) Q (raised net) p.
Proof.
  intros Hk Hnth Hpost Hop (Hc & Hs & Hr) HQ. apply wp_call. rewrite Hc.
  destruct (Hop (client_after k)) as (Hw & Hset).
  rewrite Hw, Hpost.
  destruct (fst (op (client_after k))) as [a | e]; simpl in Hset.
  - apply HQ. split; [reflexivity | ]. split; [exact Hs | ].
    cbn [refused]. rewrite Hnth. intros [fault H]. exact (Hset fault H).
  - exists (S k). split; [lia | ]. split; [reflexivity | ].
    split; [exact Hs | ]. split; [intros H5; lia | ].
    cbn [refused]. rewrite Hnth. exact Hset.
Qed.

Lemma uat_step_wp (Q : unit -> process -> Prop) (p : process) :
  at_request net 4 p ->
  (forall p', at_request net 5 p' -> Q tt p') ->
  wp (uat_step net) Q (raised net) p.
Proof.
  intros (Hc & Hs & Hr) HQ. unfold uat_step.
  apply wp_try, wp_bind, wp_call. rewrite Hc.
  destruct (get_environment_info_settled net "uat" (client_after 4))
    as (Hw & Hset).
  rewrite Hw.
  change (posted _ (client_after 4)) with (client_after 5).
  change (net (sent (client_after 4)) _) with
    (net (sent (client_after 4)) (nth 4 main_requests (main_request 0 false)))
    in Hset.
  destruct (fst (get_environment_info net "uat" (client_after 4)))
    as [uat_info | e]; simpl in Hset.
  - apply wp_conseq with
      (Q := fun _ => at_request net 5)
      (E := fun e p' => inner e = true /\ at_request net 5 p').
    + apply show_info_wp. split; [reflexivity | ]. split; [exact Hs | ].
      intros [fault H]. exact (Hset fault H).
    + intros [] p' H'. apply HQ, H'.
    + intros e p' [He H'].
      replace (is_ValueError e) with false by now destruct e.
      apply (raised_inner 5); auto.
  - destruct (is_ValueError e) eqn:Hve.
    + apply wp_print, HQ. split; [reflexivity | ]. split.
      * simpl. apply Forall_app. split; auto.
      * intros Hrf. apply Hset in Hrf. subst e. discriminate.
    + exists 5%nat. split; [lia | ]. split; [reflexivity | ].
      split; [exact Hs | ]. split; [intros _; exact Hve | exact Hset].
Qed.

Ltac call_step op k b settles :=
  apply wp_bind;
  match goal with
  | H : at_request net _ _ |- _ =>
      apply (call_wp op k b);
      [ lia | reflexivity | reflexivity | intros; apply settles | exact H
      | let a := fresh "a" in
        let q := fresh "p" in
        let Hq := fresh "H" in
        clear H; intros a q Hq ]
  end.

Ltac loop_step body_wp :=
  apply wp_bind;
  match goal with
  | H : at_request net ?k _ |- _ =>
      apply (wp_for_each (at_request net k));
      [ exact H
      | intros ? ? _ ?; apply body_wp; [lia | assumption]
      | let q := fresh "p" in
        let Hq := fresh "H" in
        clear H; intros q Hq ]
  end.

(** The body of the outer [try]: it ends after line 137 with all five
    requests made, or raises with the requests made so far. *)
Lemma main_try_wp (p : process) :
  at_request net 0 p ->
  wp (main_try net)
     (fun _ p' =>
        exists out,
          stdout p' = (out ++ [Done])%list
          /\ Forall (fun l => is_report l = false) out
          /\ client p' = client_after 5
          /\ ~ refused net 5)
     (raised net) p.
Proof.
  intros H. unfold main_try.
  print_step.
  call_step (list_environments net false) 0%nat false list_environments_settled.
  expr_step. print_step. expr_step. print_step. expr_step.
  loop_step show_enabled_wp.
  print_step.
  call_step (list_environments net true) 1%nat true list_environments_settled.
  expr_step.
  loop_step show_any_wp.
  print_step.
  call_step (get_environment_names net true) 2%nat true
            get_environment_names_settled.
  expr_step. print_step. print_step.
  call_step (get_default_environment net) 3%nat false
            get_default_environment_settled.
  print_step. print_step.
  apply wp_bind.
  match goal with
  | H : at_request net _ _ |- _ =>
      apply uat_step_wp; [exact H | clear H; intros p' H]
  end.
  print_step.
  loop_step show_config_wp.
  apply wp_print.
  match goal with
  | H : at_request net _ ?q |- _ =>
      destruct H as (Hc & Hs & Hr); exists (stdout q)
  end.
  repeat split; auto.
Qed.

Lemma main_closed : closed net (main net).
Proof.
  unfold main.
  pose (p0 := {| stdout := [Title; Rule]; client := new_world default_url |}).
  assert (H0 : at_request net 0 p0).
  { repeat split; simpl; auto. }
  pose proof (main_try_wp p0 H0) as Hb.
  change ((print Title ;;; print Rule ;;; try_except (main_try net) main_handler)%io
            {| stdout := []; client := new_world default_url |})
    with (try_except (main_try net) main_handler p0).
  unfold wp in Hb. unfold try_except.
  destruct (main_try net p0) as [[[] | e] p'].
  - destruct Hb as (out & Hout & Hs & Hc & Hr). simpl.
    exists out, 5%nat. repeat split; auto.
  - destruct Hb as (k & Hk & Hc & Hs & Hv & Hiff).
    assert (Hother : e <> ConnectionError ->
                     closed net {| stdout := (stdout p' ++ [Failed e])%list;
                                   client := client p' |}).
    { intros Hne. exists (stdout p'), k.
      split; [exact Hs | ]. split; [exact Hc | ]. split; [exact Hk | ].
      right. right. exists e. split; [reflexivity | ].
      split; [exact Hv | ]. split; [exact Hne | ].
      intros Hr. apply Hne, Hiff, Hr. }
    unfold main_handler.
    destruct e; try (apply Hother; discriminate).
    exists (stdout p'), k.
    split; [exact Hs | ]. split; [exact Hc | ]. split; [exact Hk | ].
    right. left. split; [ | now apply Hiff].
    unfold io_bind, print. simpl. now rewrite <- app_assoc.
Qed.

End MainRun.

Lemma client_after_next (net : network) (k : nat) :
  (k <= 5)%nat ->
  refused net k ->
  exists req earlier fault,
    sent (client_after k) = req :: earlier
    /\ net earlier req = PostConnectionError fault.
Proof.
  intros Hk Hr.
  destruct k as [ | [ | [ | [ | [ | [ | k]]]]]]; try lia;
    try (destruct Hr as [fault Hr];
         eexists _, _, fault; split; [reflexivity | exact Hr]).
  destruct Hr.
Qed.

Lemma client_after_refused (net : network) (k : nat) (req : http_request)
    (earlier : list http_request) (fault : connection_fault) :
  (k <= 5)%nat ->
  sent (client_after k) = req :: earlier ->
  net earlier req = PostConnectionError fault ->
  refused net k.
Proof.
  intros Hk Hs Hn.
  destruct k as [ | [ | [ | [ | [ | [ | k]]]]]]; try lia;
    try discriminate Hs; injection Hs as <- <-; exists fault; exact Hn.
Qed.

Lemma all_requests_made (k : nat) :
  (k <= 5)%nat ->
  history (client_after k) = main_requests -> k = 5%nat.
Proof.
  intros Hk H.
  destruct k as [ | [ | [ | [ | [ | [ | k]]]]]]; try lia; discriminate H.
Qed.

Lemma in_before_report (l : line) (out final : list line) :
  Forall (fun l => is_report l = false) out ->
  is_report l = true ->
  In l (out ++ final)%list -> In l final.
Proof.
  intros Hout Hl Hin. apply in_app_or in Hin as [Hin | Hin]; [ | exact Hin].
  rewrite Forall_forall in Hout. specialize (Hout l Hin). congruence.
Qed.

(** X11: [main] makes at most five requests: a first part of the five of a
    full run, in their order, with the ids 1, 2, ... and all to the
    default url; the counter of its client is their number.  The
    second pass over all environments (lines 130-135) asks nothing. *)
Theorem main_requests_in_order (net : network) :
  exists k,
    (k <= 5)%nat
    /\ history (client (main net)) = firstn k main_requests
    /\ self (client (main net)) =
         {| server_url := default_url; request_id := Z.of_nat k |}.
Proof.
  destruct (main_closed net) as (out & k & _ & Hc & Hk & _).
  exists k. rewrite Hc. split; [exact Hk | ]. split; [ | reflexivity].
  unfold history, client_after. simpl. apply rev_involutive.
Qed.

(** X12: a run of [main] prints one closing report, as its last lines: the
    line of completion, the two lines of the ConnectionError handler,
    or the line of the last handler with the exception.  That
    exception is no ConnectionError; and when the five requests were
    all made it is no ValueError, the ValueErrors of the lookup of uat
    being answered by the handler of line 125. *)
Theorem main_one_report (net : network) :
  exists out,
    Forall (fun l => is_report l = false) out
    /\ (stdout (main net) = (out ++ [Done])%list
        \/ stdout (main net) = (out ++ [CannotConnect; StartHint])%list
        \/ (exists e,
              stdout (main net) = (out ++ [Failed e])%list
              /\ e <> ConnectionError
              /\ (history (client (main net)) = main_requests ->
                  is_ValueError e = false))).
Proof.
  destruct (main_closed net) as (out & k & Hout & Hc & Hk & H).
  exists out. split; [exact Hout | ].
  destruct H as [(H & _) | [(H & _) | (e & H & Hv & Hne & _)]]; auto.
  right. right. exists e. split; [exact H | ]. split; [exact Hne | ].
  intros Hall. rewrite Hc in Hall. apply Hv.
  exact (all_requests_made k Hk Hall).
Qed.

(** X13: when [main] prints the line of completion, it has made all five
    requests. *)
Theorem main_done_after_five (net : network) :
  In Done (stdout (main net)) ->
  history (client (main net)) = main_requests.
Proof.
  intros Hin.
  destruct (main_closed net) as (out & k & Hout & Hc & Hk & H).
  destruct H as [(_ & -> & _) | [(H & _) | (e & H & _)]].
  - rewrite Hc. reflexivity.
  - rewrite H in Hin. apply in_before_report in Hin; auto.
    destruct Hin as [Hin | [Hin | []]]; discriminate.
  - rewrite H in Hin. apply in_before_report in Hin; auto.
    destruct Hin as [Hin | []]; discriminate.
Qed.

Lemma main_done_after_five_witness :
  history (client (main stub_server)) = main_requests.
Proof.
  apply main_done_after_five. vm_compute.
  repeat (first [left; reflexivity | right]).
Defined.

(** X14: [main] prints the lines of its ConnectionError handler exactly when
    [requests.post] raised ConnectionError on the last request it made,
    be it that no connection could be established or that one was
    lost. *)
Theorem main_cannot_connect_iff (net : network) :
  In CannotConnect (stdout (main net)) <->
  exists req earlier fault,
    sent (client (main net)) = req :: earlier
    /\ net earlier req = PostConnectionError fault.
Proof.
  destruct (main_closed net) as (out & k & Hout & Hc & Hk & H).
  rewrite Hc. split.
  - intros Hin.
    destruct H as [(H & _) | [(H & Hr) | (e & H & _)]].
    + rewrite H in Hin. apply in_before_report in Hin; auto.
      destruct Hin as [Hin | []]; discriminate.
    + now apply client_after_next.
    + rewrite H in Hin. apply in_before_report in Hin; auto.
      destruct Hin as [Hin | []]; discriminate.
  - intros (req & earlier & fault & Hs & Hn).
    pose proof (client_after_refused net k req earlier fault Hk Hs Hn) as Hr.
    destruct H as [(_ & _ & Hno) | [(H & _) | (e & _ & _ & _ & Hno)]];
      try contradiction.
    rewrite H. apply in_or_app. right. now left.
Qed.

(** ** [main] against a server that keeps the contract *)

Lemma well_formed_fields (env : json) :
  well_formed env = true ->
  exists n d s i c pl u h po db mn mx,
    subscript env "name" = Ret (JString n)
    /\ subscript env "description" = Ret d
    /\ subscript env "status" = Ret s
    /\ subscript env "is_default" = Ret i
    /\ subscript env "connection_info" = Ret c
    /\ subscript env "pool_config" = Ret pl
    /\ subscript c "username" = Ret u
    /\ subscript c "host" = Ret h
    /\ subscript c "port" = Ret po
    /\ subscript c "database" = Ret db
    /\ subscript pl "min_connections" = Ret mn
    /\ subscript pl "max_connections" = Ret mx.
Proof.
  unfold well_formed, subscript2. intros H.
  destruct (subscript env "name") as [[ | | | | n | | ] | ] eqn:?;
    cbn in H; try discriminate H.
  destruct (subscript env "description") as [d | ] eqn:?;
    cbn in H; try discriminate H.
  destruct (subscript env "status") as [s | ] eqn:?;
    cbn in H; try discriminate H.
  destruct (subscript env "is_default") as [i | ] eqn:?;
    cbn in H; try discriminate H.
  destruct (subscript env "connection_info") as [c | ] eqn:?;
    cbn in H; try discriminate H.
  destruct (subscript c "username") as [u | ] eqn:?;
    cbn in H; try discriminate H.
  destruct (subscript c "host") as [h | ] eqn:?;
    cbn in H; try discriminate H.
  destruct (subscript c "port") as [po | ] eqn:?;
    cbn in H; try discriminate H.
  destruct (subscript c "database") as [db | ] eqn:?;
    cbn in H; try discriminate H.
  destruct (subscript env "pool_config") as [pl | ] eqn:?;
    cbn in H; try discriminate H.
  destruct (subscript pl "min_connections") as [mn | ] eqn:?;
    cbn in H; try discriminate H.
  destruct (subscript pl "max_connections") as [mx | ] eqn:?;
    cbn in H; try discriminate H.
  exists n, d, s, i, c, pl, u, h, po, db, mn, mx. repeat split; assumption.
Qed.

Lemma well_formed_has_name (envs : list json) :
  forallb well_formed envs = true -> forallb has_name envs = true.
Proof.
  induction envs as [ | x envs IH]; simpl; intros H; [reflexivity | ].
  apply andb_prop in H as [Hx Hs].
  destruct (well_formed_fields x Hx) as (n & ? & ? & ? & ? & ? & ? & ? & ? & ? & ? & ? & Hn & _).
  unfold has_name. rewrite Hn. simpl. now apply IH.
Qed.

Lemma well_formed_names (envs : list json) :
  forallb well_formed envs = true ->
  exists ss,
    names_of envs = Ret (map JString ss)
    /\ strings_of (map JString ss) = Ret ss.
Proof.
  induction envs as [ | x envs IH]; simpl; intros H.
  - exists []. split; reflexivity.
  - apply andb_prop in H as [Hx Hs].
    destruct (well_formed_fields x Hx) as (n & ? & ? & ? & ? & ? & ? & ? & ? & ? & ? & ? & Hn & _).
    destruct (IH Hs) as (ss & Hnames & Hstr).
    exists (n :: ss). rewrite Hn, Hnames. simpl. rewrite Hstr. split; reflexivity.
Qed.

Section Contract.

Variables enabled full : list json.
Hypothesis enabled_ok : forallb well_formed enabled = true.
Hypothesis full_ok : forallb well_formed full = true.

Let net : network := listing_server enabled full.

Lemma listing_server_list (b : bool) (w : world) :
  list_environments net b w =
    (Ret (listing_of (if b then full else enabled)),
     posted (tool_request w "list_environments"
                          [("include_disabled", JBool b)]) w).
Proof.
  unfold list_environments. rewrite call_tool_eq. now destruct b.
Qed.

Lemma steady_print (c : Prop) (k : nat) (p : process) (l : line) :
  l <> InfoError uat_not_found ->
  steady c k p ->
  steady c k {| stdout := (stdout p ++ [l])%list; client := client p |}.
Proof.
  intros Hl (Hc & Hi). split; [exact Hc | ]. simpl. rewrite <- Hi.
  rewrite in_app_iff. simpl. split; [ | auto].
  intros [H | [H | []]]; [exact H | now destruct Hl].
Qed.

Ltac sprint_step :=
  apply wp_bind, wp_print;
  match goal with
  | H : steady ?c ?k ?p |- _ =>
      apply (wp_cut (steady c k));
      [ apply steady_print; [discriminate | exact H]
      | let q := fresh "p" in
        let Hq := fresh "H" in
        clear H; intros q Hq ]
  end.

Ltac slast_print :=
  apply wp_print;
  match goal with
  | H : steady _ _ _ |- _ => apply steady_print; [discriminate | exact H]
  end.

Ltac sexpr_step :=
  apply wp_bind, wp_expr; unfold subscript2;
  repeat match goal with
         | H : ?r = Ret _ |- context [?r] => rewrite H; cbn [rbind]
         end.

Lemma show_enabled_ok (c : Prop) (k : nat) (env : json) (p : process) :
  well_formed env = true ->
  steady c k p ->
  wp (show_enabled env) (fun _ => steady c k) (fun _ _ => False) p.
Proof.
  intros Hw H.
  destruct (well_formed_fields env Hw)
    as (n & d & s & i & cn & pl & u & h & po & db & mn & mx
        & Hn & Hd & Hs & Hi & Hc & Hp & Hu & Hh & Hpo & Hdb & Hmn & Hmx).
  unfold show_enabled.
  sexpr_step. sexpr_step. sexpr_step. slast_print.
Qed.

Lemma show_any_ok (c : Prop) (k : nat) (env : json) (p : process) :
  well_formed env = true ->
  steady c k p ->
  wp (show_any env) (fun _ => steady c k) (fun _ _ => False) p.
Proof.
  intros Hw H.
  destruct (well_formed_fields env Hw)
    as (n & d & s & i & cn & pl & u & h & po & db & mn & mx
        & Hn & Hd & Hs & Hi & Hc & Hp & Hu & Hh & Hpo & Hdb & Hmn & Hmx).
  unfold show_any.
  sexpr_step. sexpr_step. sexpr_step. sexpr_step. slast_print.
Qed.

Lemma show_config_ok (c : Prop) (k : nat) (env : json) (p : process) :
  well_formed env = true ->
  steady c k p ->
  wp (show_config env) (fun _ => steady c k) (fun _ _ => False) p.
Proof.
  intros Hw H.
  destruct (well_formed_fields env Hw)
    as (n & d & s & i & cn & pl & u & h & po & db & mn & mx
        & Hn & Hd & Hs & Hi & Hc & Hp & Hu & Hh & Hpo & Hdb & Hmn & Hmx).
  unfold show_config.
  sexpr_step. sexpr_step. sexpr_step. sprint_step.
  sexpr_step. sexpr_step. sexpr_step. sexpr_step. sprint_step.
  sexpr_step. sexpr_step. slast_print.
Qed.

Lemma show_info_ok (c : Prop) (k : nat) (env : json) (p : process) :
  well_formed env = true ->
  steady c k p ->
  wp (show_info env) (fun _ => steady c k) (fun _ _ => False) p.
Proof.
  intros Hw H.
  destruct (well_formed_fields env Hw)
    as (n & d & s & i & cn & pl & u & h & po & db & mn & mx
        & Hn & Hd & Hs & Hi & Hc & Hp & Hu & Hh & Hpo & Hdb & Hmn & Hmx).
  unfold show_info.
  sexpr_step. sprint_step. sexpr_step. sprint_step. sexpr_step. sprint_step.
  sexpr_step. sprint_step. sexpr_step. sprint_step. sexpr_step. sprint_step.
  sexpr_step. sprint_step. sexpr_step. slast_print.
Qed.

Lemma loop_ok (c : Prop) (k : nat) (envs : list json) (body : json -> IO unit)
    (Q : unit -> process -> Prop) (p : process) :
  forallb well_formed envs = true ->
  (forall env q, well_formed env = true -> steady c k q ->
                 wp (body env) (fun _ => steady c k) (fun _ _ => False) q) ->
  steady c k p ->
  (forall q, steady c k q -> Q tt q) ->
  wp (for_each envs body) Q (fun _ _ => False) p.
Proof.
  intros Hw Hbody H HQ.
  apply (wp_for_each (steady c k)); [exact H | | exact HQ].
  intros x q Hin Hq. apply Hbody; [ | exact Hq].
  rewrite forallb_forall in Hw. now apply Hw.
Qed.

Lemma listing_total (envs : list json) :
  subscript (listing_of envs) "total_count"
  = Ret (JInt (Z.of_nat (List.length envs))).
Proof. reflexivity. Qed.

Lemma listing_default (envs : list json) :
  subscript (listing_of envs) "default_environment" = Ret (JString "prod").
Proof. reflexivity. Qed.

Lemma listing_environments (envs : list json) :
  environments_of (listing_of envs) = Ret envs.
Proof. reflexivity. Qed.

Lemma listing_server_names (ss : list string) :
  names_of full = Ret (map JString ss) ->
  forall w,
  get_environment_names net true w =
    (Ret (map JString ss),
     posted (tool_request w "list_environments"
                          [("include_disabled", JBool true)]) w).
Proof.
  intros Hn w. rewrite get_environment_names_eq, listing_server_list.
  cbn [fst snd rbind]. rewrite listing_environments. cbn [rbind].
  now rewrite Hn.
Qed.

Lemma listing_server_default (w : world) :
  get_default_environment net w =
    (Ret (JString "prod"),
     posted (tool_request w "list_environments"
                          [("include_disabled", JBool false)]) w).
Proof.
  rewrite get_default_environment_eq, listing_server_list. reflexivity.
Qed.

Lemma listing_server_info (env_name : string) (w : world) :
  get_environment_info net env_name w =
    (find_environment env_name full,
     posted (tool_request w "list_environments"
                          [("include_disabled", JBool true)]) w).
Proof.
  rewrite get_environment_info_eq, listing_server_list. reflexivity.
Qed.

Ltac sloop_step body_ok envs_ok :=
  apply wp_bind;
  match goal with
  | H : steady ?c ?k _ |- _ =>
      apply (loop_ok c k);
      [ exact envs_ok
      | intros; apply body_ok; assumption
      | exact H
      | let q := fresh "p" in
        let Hq := fresh "H" in
        clear H; intros q Hq ]
  end.

(** After a call: the client has made one more request. *)
Ltac scall_step k eqn :=
  apply wp_bind, wp_call;
  match goal with
  | H : steady ?c _ ?p |- _ =>
      let Hc := fresh "Hc" in
      let Hi := fresh "Hi" in
      destruct H as [Hc Hi]; rewrite Hc, eqn; cbn [fst snd];
      apply (wp_cut (steady c k));
      [ split; [reflexivity | exact Hi]
      | let q := fresh "p" in
        let Hq := fresh "H" in
        clear Hc Hi; intros q Hq ]
  end.

Lemma uat_step_ok (p : process) :
  steady False 4 p ->
  wp (uat_step net)
     (fun _ => steady (existsb (named "uat") full = false) 5)
     (fun _ _ => False) p.
Proof.
  intros [Hc Hi]. unfold uat_step.
  apply wp_try, wp_bind, wp_call. rewrite Hc, listing_server_info.
  cbn [fst snd].
  change (posted _ (client_after 4)) with (client_after 5).
  pose proof (well_formed_has_name full full_ok) as Hn.
  destruct (existsb (named "uat") full) eqn:Hx.
  - destruct (find (named "uat") full) as [env | ] eqn:Hf.
    + rewrite (find_environment_first "uat" full env Hn Hf).
      apply wp_conseq with
        (Q := fun _ => steady False 5) (E := fun _ _ => False).
      * apply show_info_ok.
        -- apply find_some in Hf as [Hin _].
           rewrite forallb_forall in full_ok. now apply full_ok.
        -- split; [reflexivity | exact Hi].
      * intros _ q [Hq1 Hq2]. split; [exact Hq1 | ].
        rewrite Hq2. split; [intros [] | discriminate].
      * intros e q [].
    + apply existsb_exists in Hx as (x & Hin & Hx).
      pose proof (find_none _ _ Hf x Hin). congruence.
  - rewrite (find_environment_not_found "uat" full Hn Hx).
    cbn [is_ValueError]. apply wp_print.
    split; [reflexivity | ]. simpl. split; [reflexivity | ].
    intros _. apply in_or_app. right. now left.
Qed.

Lemma main_try_ok (p : process) :
  steady False 0 p ->
  wp (main_try net)
     (fun _ p' =>
        exists out,
          stdout p' = (out ++ [Done])%list
          /\ client p' = client_after 5
          /\ (In (InfoError uat_not_found) out
              <-> existsb (named "uat") full = false))
     (fun _ _ => False) p.
Proof.
  intros H. unfold main_try.
  destruct (well_formed_names full full_ok) as (ss & Hnames & Hstr).
  assert (Hjoin : join_names (map JString ss) = Ret (join ", " ss)).
  { unfold join_names. now rewrite Hstr. }
  pose proof (listing_total enabled) as Ht.
  pose proof (listing_default enabled) as Hd.
  pose proof (listing_environments enabled) as He.
  pose proof (listing_environments full) as Hf.
  sprint_step.
  scall_step 1%nat (listing_server_list false).
  sexpr_step. sprint_step. sexpr_step. sprint_step. sexpr_step.
  sloop_step show_enabled_ok enabled_ok.
  sprint_step.
  scall_step 2%nat (listing_server_list true).
  sexpr_step.
  sloop_step show_any_ok full_ok.
  sprint_step.
  scall_step 3%nat (listing_server_names ss Hnames).
  sexpr_step. sprint_step. sprint_step.
  scall_step 4%nat listing_server_default.
  sprint_step. sprint_step.
  apply wp_bind.
  match goal with
  | H : steady _ _ ?q |- _ =>
      apply wp_conseq with
        (Q := fun _ => steady (existsb (named "uat") full = false) 5)
        (E := fun _ _ => False);
      [ apply uat_step_ok; exact H | clear H; intros _ p' H | intros e p' [] ]
  end.
  sprint_step.
  sloop_step show_config_ok full_ok.
  apply wp_print.
  match goal with
  | H : steady _ _ ?q |- _ => destruct H as [Hc Hi]; exists (stdout q)
  end.
  repeat split; auto; apply Hi.
Qed.

End Contract.

(** X15: against a server that answers every request with a listing of
    environments that have all their fields, [main] runs to its line of
    completion, having made its five requests; on the way it prints the
    line of the missing uat exactly when the listing with the disabled
    environments has no environment named uat. *)
Theorem main_completes (enabled full : list json) :
  forallb well_formed enabled = true ->
  forallb well_formed full = true ->
  exists out,
    stdout (main (listing_server enabled full)) = (out ++ [Done])%list
    /\ history (client (main (listing_server enabled full))) = main_requests
    /\ (In (InfoError uat_not_found) out
        <-> existsb (named "uat") full = false).
Proof.
  intros He Hf. unfold main.
  pose (p0 := {| stdout := [Title; Rule]; client := new_world default_url |}).
  assert (H0 : steady False 0 p0).
  { split; [reflexivity | ]. simpl. split; [ | intros []].
    intros [H | [H | []]]; discriminate. }
  pose proof (main_try_ok enabled full He Hf p0 H0) as Hb.
  change ((print Title ;;; print Rule ;;;
           try_except (main_try (listing_server enabled full))
                      (main_handler))%io
            {| stdout := []; client := new_world default_url |})
    with (try_except (main_try (listing_server enabled full)) main_handler p0).
  unfold wp in Hb. unfold try_except.
  destruct (main_try (listing_server enabled full) p0) as [[[] | e] p'];
    [ | destruct Hb].
  destruct Hb as (out & Hout & Hc & Hi). exists out. simpl.
  split; [exact Hout | ]. split; [ | exact Hi]. now rewrite Hc.
Qed.

Lemma main_completes_witness :
  exists out,
    stdout (main (listing_server [prod; dev] [prod; dev; uat]))
      = (out ++ [Done])%list
    /\ history (client (main (listing_server [prod; dev] [prod; dev; uat])))
       = main_requests
    /\ (In (InfoError uat_not_found) out
        <-> existsb (named "uat") [prod; dev; uat] = false).
Proof.
  apply main_completes; reflexivity.
Defined.
